(** * Project_Refinement: the terminal minigame core (TerminalActor.cpp)

    A shallow embedding of [ATerminalActor] -- the wrapping grid, the scary
    number sensor, the progress bars, the day/file state machine and the
    trackball scroll accumulator -- and the properties of it that the
    specification states.

    Conventions of the embedding:
    - [int32] values are integers of [Z], and [%] and [/] are C++'s
      truncating [Z.rem] and [Z.quot].  The embedding is the program on
      the runs in which no [int32] operation overflows and no [%] or [/]
      has a zero divisor (there the C++ is undefined, or traps); every
      theorem about a function that divides or multiplies states these
      premises ([map_ok], [screen_index_ok], [scan_ok], ...).
    - [float] is IEEE-754 binary32, computed with the Standard Library's
      [SpecFloat] operations at precision 24 and maximal exponent 128
      (round to nearest, ties to even), so every float expression of the
      source is evaluated bit for bit.
    - [TArray<T>] is a [list T] indexed by [Z], with [IsValidIndex] written
      out wherever the source writes it.
    - Blueprint events and the virtual [OnAllBarsFull] hook are recorded, in
      order, in an event log; [FMath::RandRange] draws from a stream of raw
      integers; [GetWorld()->GetTimeSeconds()] reads a clock field. *)

From Stdlib Require Import ZArith QArith Lia Lqa Bool List.
From Stdlib Require Import Floats.SpecFloat.
From stdpp Require Import base list.

Local Open Scope Z_scope.

(* ===================================================================== *)
(** * Binary32 arithmetic *)
(* ===================================================================== *)

Module F32.

Definition prec : Z := 24.
Definition emax : Z := 128.

Definition float : Type := spec_float.

Definition add : float -> float -> float := SFadd prec emax.
Definition sub : float -> float -> float := SFsub prec emax.
Definition mul : float -> float -> float := SFmul prec emax.
Definition div : float -> float -> float := SFdiv prec emax.
Definition sqrt : float -> float := SFsqrt prec emax.

(** [a < b], [a <= b] and [a >= b] (written [ge a b]); all are false
    as soon as one side is a NaN. *)
Definition lt (a b : float) : bool := SFltb a b.
Definition le (a b : float) : bool := SFleb a b.
Definition ge (a b : float) : bool := SFleb b a.

(** The float [m * 2^e], correctly rounded. *)
Definition make (m e : Z) : float := binary_normalize prec emax m e false.

(** [(float)n] for an [int32] [n]. *)
Definition of_int (n : Z) : float := make n 0.

(** The integer part, rounded toward zero, of a finite float. *)
Definition trunc (x : float) : Z :=
  match x with
  | S754_finite s m e =>
      let a := match e with
               | Zneg p => Z.shiftr (Zpos m) (Zpos p)
               | _ => Z.shiftl (Zpos m) e
               end in
      if s then - a else a
  | _ => 0
  end.

Definition is_finite (x : float) : bool :=
  match x with
  | S754_finite _ _ _ | S754_zero _ => true
  | _ => false
  end.

(** [(int32)x]: truncation toward zero.  For a NaN, an infinity or a value
    outside [int32] the conversion is undefined in C++; the model returns
    what the x86-64 [cvttss2si] instruction does, [INT_MIN]. *)
Definition to_int (x : float) : Z :=
  if is_finite x && (- 2147483648 <=? trunc x) && (trunc x <=? 2147483647)
  then trunc x else - 2147483648.

(** The rational value of a finite float (0 for the others). *)
Definition to_Q (x : float) : Q :=
  match x with
  | S754_finite s m e =>
      let v := match e with
               | Zneg p => Qmake (Zpos m) (2 ^ p)%positive
               | _ => inject_Z (Zpos m * 2 ^ e)
               end in
      if s then Qopp v else v
  | _ => 0%Q
  end.

(** Literals of the source. *)
Definition zero : float := S754_zero false.
Definition one : float := Eval vm_compute in make 1 0.          (* 1.0f *)
Definition neg_one : float := Eval vm_compute in make (-1) 0.   (* -1.0f *)
Definition c1_5 : float := Eval vm_compute in make 3 (-1).      (* 1.5f *)
Definition c4 : float := Eval vm_compute in make 4 0.           (* 4.0f *)
Definition c4_5 : float := Eval vm_compute in make 9 (-1).      (* 4.5f *)
Definition c15 : float := Eval vm_compute in make 15 0.         (* 15.0f *)
Definition c0_005 : float :=                                    (* 0.005f *)
  Eval vm_compute in div (make 5 0) (make 1000 0).

(** [FMath::Square], [FMath::Sqrt] and [FMath::Clamp]
    ([X < Min ? Min : X < Max ? X : Max]) of the engine. *)
Definition Square (x : float) : float := mul x x.
Definition Clamp (x lo hi : float) : float :=
  if lt x lo then lo else if lt x hi then x else hi.

End F32.

Abbreviation float := F32.float.

(* ===================================================================== *)
(** * TArray *)
(* ===================================================================== *)

Section TArray.
Context {A : Type}.

Definition Num (arr : list A) : Z := Z.of_nat (length arr).

Definition IsValidIndex (arr : list A) (i : Z) : bool :=
  (0 <=? i) && (i <? Num arr).

(** [TArray::Init(v, n)]. *)
Definition Init (v : A) (n : Z) : list A := replicate (Z.to_nat n) v.

(** [arr[i]]; the source only reads at indices it has checked or that a
    loop keeps in range, elsewhere the model answers [d]. *)
Definition Get (d : A) (arr : list A) (i : Z) : A :=
  if IsValidIndex arr i then default d (arr !! Z.to_nat i) else d.

(** [arr[i] = v]. *)
Definition Put (arr : list A) (i : Z) (v : A) : list A :=
  if IsValidIndex arr i then <[Z.to_nat i := v]> arr else arr.
End TArray.

(** The index values of [for (i = lo; i < hi; i += step)], [step > 0]. *)
Definition for_range (lo hi step : Z) : list Z :=
  map (fun k : nat => lo + step * Z.of_nat k)
      (seq 0 (Z.to_nat ((hi - lo + step - 1) / step))).

(* ===================================================================== *)
(** * The actor and its environment *)
(* ===================================================================== *)

(** Notifications the actor sends out: Blueprint events, and the virtual
    [OnAllBarsFull] hook. *)
Inductive Event : Type :=
| GridScrolled
| ProgressUpdated (BarIndex : Z) (NewValue : float)
| ChunkConsumed
| FileCompleted (FilesDone FilesTarget : Z)
| DayComplete (DayDurationSeconds : float)
| ShowFileSelection
| DayStarted
| DayCompleted
| AllBarsFullHook.

Definition Event_eqb_FileCompleted (e : Event) : bool :=
  match e with FileCompleted _ _ => true | _ => false end.
Definition Event_eqb_AllBarsFull (e : Event) : bool :=
  match e with AllBarsFullHook => true | _ => false end.

(** The fields of [ATerminalActor] that the gameplay core reads or writes
    (TerminalActor.h), with the header's names. *)
Record ATerminalActor : Type := mkActor {
  PrimeIndices : list Z;
  GridWidth : Z;
  GridHeight : Z;
  ProgressBars : list float;
  PendingChunkValue : float;
  bBarCoolingDown : list bool;
  BarCooldownRemaining : list float;
  BarCooldownSeconds : float;
  FilesPerDay : Z;
  FilesRefinedCount : Z;
  bDayActive : bool;
  ScaryActive : list bool;
  MaxSensorDistance : float;
  GlobalGridNumbers : list Z;
  GlobalMapWidth : Z;
  GlobalMapHeight : Z;
  ScrollX : Z;
  ScrollY : Z;
  ScrollSensitivity : float;
  AccumulatorX : float;
  AccumulatorY : float;
  DayStartTime : float
}.

Definition set_ProgressBars (v : list float) (a : ATerminalActor) :=
  mkActor (PrimeIndices a) (GridWidth a) (GridHeight a) v
    (PendingChunkValue a) (bBarCoolingDown a) (BarCooldownRemaining a)
    (BarCooldownSeconds a) (FilesPerDay a) (FilesRefinedCount a)
    (bDayActive a) (ScaryActive a) (MaxSensorDistance a)
    (GlobalGridNumbers a) (GlobalMapWidth a) (GlobalMapHeight a)
    (ScrollX a) (ScrollY a) (ScrollSensitivity a) (AccumulatorX a)
    (AccumulatorY a) (DayStartTime a).

Definition set_PendingChunkValue (v : float) (a : ATerminalActor) :=
  mkActor (PrimeIndices a) (GridWidth a) (GridHeight a) (ProgressBars a)
    v (bBarCoolingDown a) (BarCooldownRemaining a)
    (BarCooldownSeconds a) (FilesPerDay a) (FilesRefinedCount a)
    (bDayActive a) (ScaryActive a) (MaxSensorDistance a)
    (GlobalGridNumbers a) (GlobalMapWidth a) (GlobalMapHeight a)
    (ScrollX a) (ScrollY a) (ScrollSensitivity a) (AccumulatorX a)
    (AccumulatorY a) (DayStartTime a).

Definition set_FilesRefinedCount (v : Z) (a : ATerminalActor) :=
  mkActor (PrimeIndices a) (GridWidth a) (GridHeight a) (ProgressBars a)
    (PendingChunkValue a) (bBarCoolingDown a) (BarCooldownRemaining a)
    (BarCooldownSeconds a) (FilesPerDay a) v
    (bDayActive a) (ScaryActive a) (MaxSensorDistance a)
    (GlobalGridNumbers a) (GlobalMapWidth a) (GlobalMapHeight a)
    (ScrollX a) (ScrollY a) (ScrollSensitivity a) (AccumulatorX a)
    (AccumulatorY a) (DayStartTime a).

Definition set_bDayActive (v : bool) (a : ATerminalActor) :=
  mkActor (PrimeIndices a) (GridWidth a) (GridHeight a) (ProgressBars a)
    (PendingChunkValue a) (bBarCoolingDown a) (BarCooldownRemaining a)
    (BarCooldownSeconds a) (FilesPerDay a) (FilesRefinedCount a)
    v (ScaryActive a) (MaxSensorDistance a)
    (GlobalGridNumbers a) (GlobalMapWidth a) (GlobalMapHeight a)
    (ScrollX a) (ScrollY a) (ScrollSensitivity a) (AccumulatorX a)
    (AccumulatorY a) (DayStartTime a).

Definition set_ScaryActive (v : list bool) (a : ATerminalActor) :=
  mkActor (PrimeIndices a) (GridWidth a) (GridHeight a) (ProgressBars a)
    (PendingChunkValue a) (bBarCoolingDown a) (BarCooldownRemaining a)
    (BarCooldownSeconds a) (FilesPerDay a) (FilesRefinedCount a)
    (bDayActive a) v (MaxSensorDistance a)
    (GlobalGridNumbers a) (GlobalMapWidth a) (GlobalMapHeight a)
    (ScrollX a) (ScrollY a) (ScrollSensitivity a) (AccumulatorX a)
    (AccumulatorY a) (DayStartTime a).

Definition set_MaxSensorDistance (v : float) (a : ATerminalActor) :=
  mkActor (PrimeIndices a) (GridWidth a) (GridHeight a) (ProgressBars a)
    (PendingChunkValue a) (bBarCoolingDown a) (BarCooldownRemaining a)
    (BarCooldownSeconds a) (FilesPerDay a) (FilesRefinedCount a)
    (bDayActive a) (ScaryActive a) v
    (GlobalGridNumbers a) (GlobalMapWidth a) (GlobalMapHeight a)
    (ScrollX a) (ScrollY a) (ScrollSensitivity a) (AccumulatorX a)
    (AccumulatorY a) (DayStartTime a).

Definition set_GlobalGridNumbers (v : list Z) (a : ATerminalActor) :=
  mkActor (PrimeIndices a) (GridWidth a) (GridHeight a) (ProgressBars a)
    (PendingChunkValue a) (bBarCoolingDown a) (BarCooldownRemaining a)
    (BarCooldownSeconds a) (FilesPerDay a) (FilesRefinedCount a)
    (bDayActive a) (ScaryActive a) (MaxSensorDistance a)
    v (GlobalMapWidth a) (GlobalMapHeight a)
    (ScrollX a) (ScrollY a) (ScrollSensitivity a) (AccumulatorX a)
    (AccumulatorY a) (DayStartTime a).

Definition set_Scroll (x y : Z) (a : ATerminalActor) :=
  mkActor (PrimeIndices a) (GridWidth a) (GridHeight a) (ProgressBars a)
    (PendingChunkValue a) (bBarCoolingDown a) (BarCooldownRemaining a)
    (BarCooldownSeconds a) (FilesPerDay a) (FilesRefinedCount a)
    (bDayActive a) (ScaryActive a) (MaxSensorDistance a)
    (GlobalGridNumbers a) (GlobalMapWidth a) (GlobalMapHeight a)
    x y (ScrollSensitivity a) (AccumulatorX a)
    (AccumulatorY a) (DayStartTime a).

Definition set_Accumulator (x y : float) (a : ATerminalActor) :=
  mkActor (PrimeIndices a) (GridWidth a) (GridHeight a) (ProgressBars a)
    (PendingChunkValue a) (bBarCoolingDown a) (BarCooldownRemaining a)
    (BarCooldownSeconds a) (FilesPerDay a) (FilesRefinedCount a)
    (bDayActive a) (ScaryActive a) (MaxSensorDistance a)
    (GlobalGridNumbers a) (GlobalMapWidth a) (GlobalMapHeight a)
    (ScrollX a) (ScrollY a) (ScrollSensitivity a) x y (DayStartTime a).

Definition set_DayStartTime (v : float) (a : ATerminalActor) :=
  mkActor (PrimeIndices a) (GridWidth a) (GridHeight a) (ProgressBars a)
    (PendingChunkValue a) (bBarCoolingDown a) (BarCooldownRemaining a)
    (BarCooldownSeconds a) (FilesPerDay a) (FilesRefinedCount a)
    (bDayActive a) (ScaryActive a) (MaxSensorDistance a)
    (GlobalGridNumbers a) (GlobalMapWidth a) (GlobalMapHeight a)
    (ScrollX a) (ScrollY a) (ScrollSensitivity a) (AccumulatorX a)
    (AccumulatorY a) v.

(** What surrounds the actor: the engine clock, the engine's random
    generator (a stream of raw draws and the number already consumed) and
    the notifications sent so far, oldest first. *)
Record World : Type := mkWorld {
  self : ATerminalActor;
  TimeSeconds : float;
  RandDraws : nat -> Z;
  RandCursor : nat;
  Log : list Event
}.

Definition with_self (f : ATerminalActor -> ATerminalActor) (w : World) :=
  mkWorld (f (self w)) (TimeSeconds w) (RandDraws w) (RandCursor w) (Log w).

Definition emit (e : Event) (w : World) : World :=
  mkWorld (self w) (TimeSeconds w) (RandDraws w) (RandCursor w) (Log w ++ [e]).

(** [FMath::RandHelper(A)]: a value of [0 .. A-1] ([0] when [A <= 0]),
    decided by the next raw draw. *)
Definition RandHelper (A : Z) (w : World) : Z * World :=
  (if 0 <? A then RandDraws w (RandCursor w) mod A else 0,
   mkWorld (self w) (TimeSeconds w) (RandDraws w) (S (RandCursor w)) (Log w)).

(** [FMath::RandRange(Min, Max)]. *)
Definition RandRange (Min Max : Z) (w : World) : Z * World :=
  let Range := (Max - Min) + 1 in
  let (r, w) := RandHelper Range w in
  (Min + r, w).

(** Blueprint events: the actor only sends them. *)
Definition OnGridScrolled : World -> World := emit GridScrolled.
Definition OnProgressUpdated (BarIndex : Z) (NewValue : float) : World -> World :=
  emit (ProgressUpdated BarIndex NewValue).
Definition OnChunkConsumed : World -> World := emit ChunkConsumed.
Definition OnFileCompleted (FilesDone FilesTarget : Z) : World -> World :=
  emit (FileCompleted FilesDone FilesTarget).
Definition BP_OnDayComplete (DayDurationSeconds : float) : World -> World :=
  emit (DayComplete DayDurationSeconds).
Definition BP_OnShowFileSelection : World -> World := emit ShowFileSelection.
Definition OnDayStarted : World -> World := emit DayStarted.

(** [ATerminalActor::OnAllBarsFull], the base implementation (it logs). *)
Definition OnAllBarsFull : World -> World := emit AllBarsFullHook.

(** The actor as the header's initialisers and the constructor leave it.
    The fields neither of them sets ([AccumulatorX], [AccumulatorY],
    [DayStartTime]) hold the zero of a freshly allocated object. *)
Definition ATerminalActor_new : ATerminalActor :=
  let GridWidth := 10 in
  let GridHeight := 10 in
  let InitialSize := GridWidth * GridHeight in
  {| PrimeIndices := [];
     GridWidth := GridWidth;
     GridHeight := GridHeight;
     ProgressBars := Init F32.zero 4;
     PendingChunkValue := F32.zero;
     bBarCoolingDown := Init false 4;
     BarCooldownRemaining := Init F32.zero 4;
     BarCooldownSeconds := F32.make 5 (-1);
     FilesPerDay := 2;
     FilesRefinedCount := 0;
     bDayActive := false;
     ScaryActive := Init false InitialSize;
     MaxSensorDistance := F32.c15;
     GlobalGridNumbers := [];
     GlobalMapWidth := 1000;
     GlobalMapHeight := 1000;
     ScrollX := 500;
     ScrollY := 500;
     ScrollSensitivity := F32.make 1 (-1);
     AccumulatorX := F32.zero;
     AccumulatorY := F32.zero;
     DayStartTime := F32.zero |}.

(* ===================================================================== *)
(** * Index conversion *)
(* ===================================================================== *)

(** Both functions below divide by [GridWidth], [GlobalMapWidth] or
    [GlobalMapHeight] and multiply by [GlobalMapWidth]: they are the source
    where [map_ok] (and, for a screen index, [screen_index_ok]) holds. *)
Definition GetGlobalIndexFromScreenIndex (a : ATerminalActor) (ScreenIndex : Z) : Z :=
  let ScreenX := Z.rem ScreenIndex (GridWidth a) in
  let ScreenY := Z.quot ScreenIndex (GridWidth a) in
  let RawGlobalX := ScrollX a + ScreenX in
  let RawGlobalY := ScrollY a + ScreenY in
  let WrappedX := Z.rem RawGlobalX (GlobalMapWidth a) in
  let WrappedX := if WrappedX <? 0 then WrappedX + GlobalMapWidth a else WrappedX in
  let WrappedY := Z.rem RawGlobalY (GlobalMapHeight a) in
  let WrappedY := if WrappedY <? 0 then WrappedY + GlobalMapHeight a else WrappedY in
  WrappedY * GlobalMapWidth a + WrappedX.

Definition GetGridNumber (a : ATerminalActor) (GridX GridY : Z) : Z :=
  let WrappedX := Z.rem GridX (GlobalMapWidth a) in
  let WrappedX := if WrappedX <? 0 then WrappedX + GlobalMapWidth a else WrappedX in
  let WrappedY := Z.rem GridY (GlobalMapHeight a) in
  let WrappedY := if WrappedY <? 0 then WrappedY + GlobalMapHeight a else WrappedY in
  let GlobalIdx := WrappedY * GlobalMapWidth a + WrappedX in
  if IsValidIndex (GlobalGridNumbers a) GlobalIdx
  then Get 0 (GlobalGridNumbers a) GlobalIdx
  else 0.

(* ===================================================================== *)
(** * Grid generation and primes *)
(* ===================================================================== *)

(** Step 1 of [GenerateGrid], one iteration. *)
Definition GenerateGrid_fill (w : World) (i : Z) : World :=
  let (r, w) := RandRange 1 9 w in
  with_self (fun a => set_GlobalGridNumbers (Put (GlobalGridNumbers a) i r) a) w.

(** Step 2 of [GenerateGrid], the body of the inner loop. *)
Definition GenerateGrid_sector (SectorSize y : Z) (w : World) (x : Z) : World :=
  let (rx, w) := RandRange 5 (SectorSize - 5) w in
  let RandX := x + rx in
  let (ry, w) := RandRange 5 (SectorSize - 5) w in
  let RandY := y + ry in
  let GlobalIdx := RandY * GlobalMapWidth (self w) + RandX in
  if IsValidIndex (ScaryActive (self w)) GlobalIdx
  then with_self (fun a => set_ScaryActive (Put (ScaryActive a) GlobalIdx true) a) w
  else w.

Definition GenerateGrid (w : World) : World :=
  let TotalGlobalCount := GlobalMapWidth (self w) * GlobalMapHeight (self w) in
  let w := with_self (set_GlobalGridNumbers (Init 0 TotalGlobalCount)) w in
  let w := with_self (set_ScaryActive (Init false TotalGlobalCount)) w in
  let w := fold_left GenerateGrid_fill (for_range 0 TotalGlobalCount 1) w in
  let SectorSize := 50 in
  let w :=
    fold_left
      (fun w y =>
         fold_left (GenerateGrid_sector SectorSize y)
                   (for_range 0 (GlobalMapWidth (self w)) SectorSize) w)
      (for_range 0 (GlobalMapHeight (self w)) SectorSize) w in
  OnGridScrolled w.

Definition IsPrime (Number : Z) : bool :=
  (Number =? 2) || (Number =? 3) || (Number =? 5) || (Number =? 7).

Definition IsIndexScary (a : ATerminalActor) (ScreenIndex : Z) : bool :=
  let GlobalIdx := GetGlobalIndexFromScreenIndex a ScreenIndex in
  if IsValidIndex (ScaryActive a) GlobalIdx
  then Get false (ScaryActive a) GlobalIdx
  else false.

Definition HighlightRandomPrime (w : World) : World :=
  if Num (PrimeIndices (self w)) =? 0 then w else
  let Candidates :=
    List.filter (fun Idx => IsValidIndex (ScaryActive (self w)) Idx
                            && negb (Get false (ScaryActive (self w)) Idx))
                (PrimeIndices (self w)) in
  if Num Candidates =? 0 then w else
  let (k, w) := RandRange 0 (Num Candidates - 1) w in
  let Chosen := Get 0 Candidates k in
  with_self (fun a => set_ScaryActive (Put (ScaryActive a) Chosen true) a) w.

(* ===================================================================== *)
(** * Progress bars, files and days *)
(* ===================================================================== *)

Definition ResetProgressBars (w : World) : World :=
  let w := with_self (set_ProgressBars (Init F32.zero 4)) w in
  fold_left (fun w BarIndex => OnProgressUpdated BarIndex F32.zero w)
            (for_range 0 4 1) w.

Definition IsBarAvailable (a : ATerminalActor) (BarIndex : Z) : bool :=
  if negb (IsValidIndex (bBarCoolingDown a) BarIndex)
     || negb (IsValidIndex (ProgressBars a) BarIndex)
  then false
  else
    let bIsCooling := Get false (bBarCoolingDown a) BarIndex in
    let bIsFull := F32.ge (Get F32.zero (ProgressBars a) BarIndex) F32.one in
    negb bIsCooling && negb bIsFull.

Definition GetBarCooldownRatio (a : ATerminalActor) (BarIndex : Z) : float :=
  if negb (IsValidIndex (BarCooldownRemaining a) BarIndex)
     || F32.le (BarCooldownSeconds a) F32.zero
  then F32.zero
  else F32.Clamp (F32.div (Get F32.zero (BarCooldownRemaining a) BarIndex)
                          (BarCooldownSeconds a))
                 F32.zero F32.one.

Definition IsBarFull (a : ATerminalActor) (BarIndex : Z) : bool :=
  if IsValidIndex (ProgressBars a) BarIndex
  then F32.ge (Get F32.zero (ProgressBars a) BarIndex) F32.one
  else false.

Definition AllBarsFull (a : ATerminalActor) : bool :=
  forallb (fun Bar => negb (F32.lt Bar F32.one)) (ProgressBars a).

Definition GetMasterProgress (a : ATerminalActor) : float :=
  let Total := fold_left (fun Total BinProgress => F32.add Total BinProgress)
                         (ProgressBars a) F32.zero in
  F32.Clamp (F32.div Total F32.c4) F32.zero F32.one.

Definition OnFileWorkComplete (w : World) : World :=
  let w := with_self (fun a => set_FilesRefinedCount (FilesRefinedCount a + 1) a) w in
  let w := OnFileCompleted (FilesRefinedCount (self w)) (FilesPerDay (self w)) w in
  if FilesPerDay (self w) <=? FilesRefinedCount (self w) then
    let w := with_self (set_bDayActive false) w in
    let Duration := F32.sub (TimeSeconds w) (DayStartTime (self w)) in
    BP_OnDayComplete Duration w
  else
    let w := ResetProgressBars w in
    BP_OnShowFileSelection w.

Definition ApplChunkToBar (BarIndex : Z) (w : World) : World :=
  if negb (bDayActive (self w)) || F32.le (PendingChunkValue (self w)) F32.zero
  then w else
  if negb (IsValidIndex (ProgressBars (self w)) BarIndex)
     || F32.ge (Get F32.zero (ProgressBars (self w)) BarIndex) F32.one
  then w else
  let w :=
    with_self
      (fun a =>
         set_ProgressBars
           (Put (ProgressBars a) BarIndex
                (F32.Clamp (F32.add (Get F32.zero (ProgressBars a) BarIndex)
                                    (F32.mul (PendingChunkValue a) F32.c1_5))
                           F32.zero F32.one)) a) w in
  let w := with_self (set_PendingChunkValue F32.zero) w in
  let w := OnChunkConsumed w in
  let w := OnProgressUpdated BarIndex (Get F32.zero (ProgressBars (self w)) BarIndex) w in
  let w := if F32.ge (GetMasterProgress (self w)) F32.one
           then OnFileWorkComplete w else w in
  if AllBarsFull (self w) then OnAllBarsFull w else w.

Definition StartDay (w : World) : World :=
  let w := with_self (set_bDayActive true) w in
  let w := with_self (set_DayStartTime (TimeSeconds w)) w in
  let w := GenerateGrid w in
  OnDayStarted w.


(* ===================================================================== *)
(** * The proximity sensor *)
(* ===================================================================== *)

(** The body of the inner scan loop of [GetSensorProximityValue]; the
    loop state is [(MinDistSq, bFound)]. *)
Definition GetSensorProximityValue_cell (a : ATerminalActor)
    (CenterX CenterY : float) (y : Z) (st : float * bool) (x : Z) : float * bool :=
  let '(MinDistSq, bFound) := st in
  let WrappedX := Z.rem x (GlobalMapWidth a) in
  let WrappedX := if WrappedX <? 0 then WrappedX + GlobalMapWidth a else WrappedX in
  let WrappedY := Z.rem y (GlobalMapHeight a) in
  let WrappedY := if WrappedY <? 0 then WrappedY + GlobalMapHeight a else WrappedY in
  let GlobalIdx := WrappedY * GlobalMapWidth a + WrappedX in
  if IsValidIndex (ScaryActive a) GlobalIdx && Get false (ScaryActive a) GlobalIdx
  then
    let DistSq := F32.add (F32.Square (F32.sub (F32.of_int x) CenterX))
                          (F32.Square (F32.sub (F32.of_int y) CenterY)) in
    if F32.lt DistSq MinDistSq then (DistSq, true) else (MinDistSq, bFound)
  else (MinDistSq, bFound).

Definition GetSensorProximityValue (a : ATerminalActor) : float :=
  let RealMaxDistance := F32.c15 in
  let CenterX := F32.add (F32.add (F32.of_int (ScrollX a)) (AccumulatorX a)) F32.c4_5 in
  let CenterY := F32.add (F32.add (F32.of_int (ScrollY a)) (AccumulatorY a)) F32.c4_5 in
  let SearchRadius := 16 in
  let '(MinDistSq, bFound) :=
    fold_left
      (fun st y =>
         fold_left (GetSensorProximityValue_cell a CenterX CenterY y)
                   (for_range (ScrollX a - SearchRadius)
                              (ScrollX a + SearchRadius + 10 + 1) 1) st)
      (for_range (ScrollY a - SearchRadius) (ScrollY a + SearchRadius + 10 + 1) 1)
      (F32.Square RealMaxDistance, false) in
  if negb bFound then F32.zero else
  let Distance := F32.sqrt MinDistSq in
  F32.Clamp (F32.sub F32.one (F32.div Distance RealMaxDistance)) F32.zero F32.one.

(* ===================================================================== *)
(** * Scrolling *)
(* ===================================================================== *)

Definition ApplyTrackballInput (AxisX AxisY : float) (w : World) : World :=
  let a := self w in
  let AccX := F32.add (AccumulatorX a)
                      (F32.mul (F32.mul AxisX F32.neg_one) (ScrollSensitivity a)) in
  let AccY := F32.add (AccumulatorY a)
                      (F32.mul (F32.mul AxisY F32.neg_one) (ScrollSensitivity a)) in
  let SX := ScrollX a + F32.to_int AccX in
  let SY := ScrollY a + F32.to_int AccY in
  let AccX := F32.sub AccX (F32.of_int (F32.to_int AccX)) in
  let AccY := F32.sub AccY (F32.of_int (F32.to_int AccY)) in
  let SX := Z.rem SX (GlobalMapWidth a) in
  let SX := if SX <? 0 then SX + GlobalMapWidth a else SX in
  let SY := Z.rem SY (GlobalMapHeight a) in
  let SY := if SY <? 0 then SY + GlobalMapHeight a else SY in
  OnGridScrolled (with_self (fun a => set_Scroll SX SY (set_Accumulator AccX AccY a)) w).

(* ===================================================================== *)
(** * Dropping a snake on a bar *)
(* ===================================================================== *)

(** The loop body of [HandleScaryDrop]; the loop state is
    [(TotalValueFromSnake, world)]. *)
Definition HandleScaryDrop_tile (st : float * World) (ScreenIdx : Z) : float * World :=
  let '(TotalValueFromSnake, w) := st in
  let GlobalIdx := GetGlobalIndexFromScreenIndex (self w) ScreenIdx in
  if IsValidIndex (GlobalGridNumbers (self w)) GlobalIdx then
    let NumberValue := Get 0 (GlobalGridNumbers (self w)) GlobalIdx in
    let ProgressContribution := F32.mul (F32.of_int NumberValue) F32.c0_005 in
    let '(ProgressContribution, w) :=
      if IsValidIndex (ScaryActive (self w)) GlobalIdx
         && Get false (ScaryActive (self w)) GlobalIdx
      then (F32.mul ProgressContribution F32.c4,
            with_self (fun a => set_ScaryActive (Put (ScaryActive a) GlobalIdx false) a) w)
      else (ProgressContribution, w) in
    let (r, w) := RandRange 1 9 w in
    let w := with_self (fun a => set_GlobalGridNumbers (Put (GlobalGridNumbers a) GlobalIdx r) a) w in
    (F32.add TotalValueFromSnake ProgressContribution, w)
  else (TotalValueFromSnake, w).

(** The sum and the world the loop of [HandleScaryDrop] ends with. *)
Definition HandleScaryDrop_loop (TileIndices : list Z) (w : World) : float * World :=
  fold_left HandleScaryDrop_tile TileIndices (F32.zero, w).

Definition HandleScaryDrop (TileIndices : list Z) (BarIndex : Z) (w : World) : World :=
  let '(TotalValueFromSnake, w) := HandleScaryDrop_loop TileIndices w in
  let w := with_self (set_PendingChunkValue TotalValueFromSnake) w in
  let w := ApplChunkToBar BarIndex w in
  OnGridScrolled w.

(** [Get3x3Group]: the block around a centre cell, clipped at the edges
    of the map; it divides by [GlobalMapWidth]. *)
Definition Get3x3Group (a : ATerminalActor) (CenterIndex : Z) : list Z :=
  let CenterX := Z.rem CenterIndex (GlobalMapWidth a) in
  let CenterY := Z.quot CenterIndex (GlobalMapWidth a) in
  fold_left
    (fun Group y =>
       fold_left
         (fun Group x =>
            if (0 <=? x) && (x <? GlobalMapWidth a)
               && (0 <=? y) && (y <? GlobalMapHeight a)
            then Group ++ [y * GlobalMapWidth a + x]
            else Group)
         (for_range (CenterX - 1) (CenterX + 1 + 1) 1) Group)
    (for_range (CenterY - 1) (CenterY + 1 + 1) 1) [].

(** [HasPendingChunk] of the header. *)
Definition HasPendingChunk (a : ATerminalActor) : bool :=
  F32.lt F32.zero (PendingChunkValue a).

(* ===================================================================== *)
(** * Vocabulary of the specification *)
(* ===================================================================== *)

(** The wrapping rule in the specification's words: [x mod N], adding [N]
    when the remainder is negative. *)
Definition wrap (x N : Z) : Z :=
  let r := Z.rem x N in if r <? 0 then r + N else r.

(** Number of scary flags that are set. *)
Definition count_true (flags : list bool) : nat :=
  length (List.filter (fun b : bool => b) flags).

(** Number of notifications of a kind in a log. *)
Definition count_events (kind : Event -> bool) (log : list Event) : nat :=
  length (List.filter kind log).

(** A float that is [+0] or [-0]. *)
Definition is_zero (x : float) : bool :=
  match x with S754_zero _ => true | _ => false end.

(** Neither negative nor, if a number at all, below zero. *)
Definition not_negative (x : float) : bool :=
  match x with
  | S754_finite s _ _ | S754_infinity s => negb s
  | _ => true
  end.

Definition is_nan (x : float) : bool :=
  match x with S754_nan => true | _ => false end.

(** The global index the scan of the sensor looks at for the raw
    coordinates [(x, y)]. *)
Definition scan_index (a : ATerminalActor) (x y : Z) : Z :=
  wrap y (GlobalMapHeight a) * GlobalMapWidth a + wrap x (GlobalMapWidth a).

(** The raw coordinates the sensor scans on one axis, from scroll position
    [s]: [s - 16 .. s + 16 + 10]. *)
Definition in_scan_window (s c : Z) : Prop := s - 16 <= c <= s + 26.

(** The continuous centre of the viewport on one axis. *)
Definition view_center (scroll : Z) (acc : float) : float :=
  F32.add (F32.add (F32.of_int scroll) acc) F32.c4_5.

(** A sequence of [ApplyTrackballInput] calls. *)
Definition ApplyTrackballInputs (inputs : list (float * float)) (w : World) : World :=
  fold_left (fun w d => ApplyTrackballInput (fst d) (snd d) w) inputs w.

(** One axis of [ApplyTrackballInput]: accumulator and scroll position
    before, input [d], sensitivity [s], map size [N]. *)
Definition axis_step (s : float) (N : Z) (st : float * Z) (d : float) : float * Z :=
  let acc1 := F32.add (fst st) (F32.mul (F32.mul d F32.neg_one) s) in
  (F32.sub acc1 (F32.of_int (F32.to_int acc1)),
   wrap (snd st + F32.to_int acc1) N).

(** The scaled delta [-d * s] as a rational, and the sum over a run. *)
Definition scaled_delta (s d : float) : Q := (- F32.to_Q d * F32.to_Q s)%Q.
Definition scaled_sum (s : float) (ds : list float) : Q :=
  fold_right (fun d t => (scaled_delta s d + t)%Q) 0%Q ds.

(** No operation of one axis step rounds or overflows: the accumulation
    adds exactly the scaled delta, the cast to [int32] is defined, the new
    scroll position is an [int32] before it is wrapped, and removing the
    integer part is exact. *)
Definition axis_step_exact (s : float) (st : float * Z) (d : float) : bool :=
  let acc1 := F32.add (fst st) (F32.mul (F32.mul d F32.neg_one) s) in
  let acc2 := F32.sub acc1 (F32.of_int (F32.to_int acc1)) in
  F32.is_finite acc1 && F32.is_finite acc2
  && (F32.to_int acc1 =? F32.trunc acc1)
  && (- 2147483648 <=? snd st + F32.to_int acc1)
  && (snd st + F32.to_int acc1 <=? 2147483647)
  && Qeq_bool (F32.to_Q acc1) (F32.to_Q (fst st) + scaled_delta s d)
  && Qeq_bool (F32.to_Q acc2) (F32.to_Q acc1 - inject_Z (F32.trunc acc1)).

Fixpoint axis_run_exact (s : float) (N : Z) (st : float * Z) (ds : list float) : bool :=
  match ds with
  | [] => true
  | d :: ds' => axis_step_exact s st d
                && axis_run_exact s N (axis_step s N st d) ds'
  end.

(** Example worlds: a freshly constructed actor on a [W] x [H] map, the
    viewport at the origin. *)
Definition actor_on_map (W H : Z) : ATerminalActor :=
  mkActor [] 10 10 (Init F32.zero 4) F32.zero (Init false 4) (Init F32.zero 4)
    (F32.make 5 (-1)) 2 0 false (Init false 100) F32.c15 [] W H 0 0
    (F32.make 1 (-1)) F32.zero F32.zero F32.zero.

Definition world_of (a : ATerminalActor) (draws : nat -> Z) : World :=
  mkWorld a F32.zero draws 0%nat [].

(** The whole 10 x 10 screen as a selection. *)
Definition whole_screen : list Z := for_range 0 100 1.

(** 0.08f. *)
Definition c0_08 : float := Eval vm_compute in F32.div (F32.make 8 0) (F32.make 100 0).

(** What a drop may not touch when it applies its chunk: the grid, the
    scary flags and the viewport. *)
Definition grid_view (a : ATerminalActor) : list Z * list bool * (Z * Z) * (Z * Z * Z * Z) :=
  (GlobalGridNumbers a, ScaryActive a, (ScrollX a, ScrollY a),
   (GridWidth a, GridHeight a, GlobalMapWidth a, GlobalMapHeight a)).

(** A generated 12 x 12 map on which every raw draw is 3: every cell holds
    4 and the one scary tile sits at (8, 8), screen index 88. *)
Definition world_all_fours : World :=
  GenerateGrid (world_of (actor_on_map 12 12) (fun _ => 3)).


(** The values of an [int32]. *)
Definition int32_range (z : Z) : Prop := - 2147483648 <= z <= 2147483647.

(** The map sizes are positive and their product is an [int32]: no [%] by
    a map size divides by zero, and no index [y * GlobalMapWidth + x] with
    [x] and [y] wrapped into the map overflows. *)
Definition map_ok (a : ATerminalActor) : Prop :=
  0 < GlobalMapWidth a /\ 0 < GlobalMapHeight a
  /\ GlobalMapWidth a * GlobalMapHeight a <= 2147483647.

(** [GetGlobalIndexFromScreenIndex] can split the screen index [s] and add
    the scroll position without a zero divisor and without overflow. *)
Definition screen_index_ok (a : ATerminalActor) (s : Z) : Prop :=
  GridWidth a <> 0
  /\ int32_range s
  /\ int32_range (Z.quot s (GridWidth a))
  /\ int32_range (ScrollX a + Z.rem s (GridWidth a))
  /\ int32_range (ScrollY a + Z.quot s (GridWidth a)).

(** A started day on a 12 x 12 map on which every raw draw is 8: every
    cell holds 9 and no scary tile fits on the map. *)
Definition world_all_nines : World :=
  StartDay (world_of (actor_on_map 12 12) (fun _ => 8)).

(** A generated 12 x 12 map on which every raw draw is 1: every cell
    holds the prime 2. *)
Definition world_all_twos : World :=
  GenerateGrid (world_of (actor_on_map 12 12) (fun _ => 1)).

(** The world right after [ApplChunkToBar] has added the pending chunk to
    bar [BarIndex] and sent its two notifications, before it looks at the
    master progress. *)
Definition chunk_applied (BarIndex : Z) (w : World) : World :=
  OnProgressUpdated BarIndex
    (F32.Clamp (F32.add (Get F32.zero (ProgressBars (self w)) BarIndex)
                        (F32.mul (PendingChunkValue (self w)) F32.c1_5))
               F32.zero F32.one)
    (OnChunkConsumed
       (with_self (set_PendingChunkValue F32.zero)
          (with_self
             (fun a =>
                set_ProgressBars
                  (Put (ProgressBars a) BarIndex
                       (F32.Clamp (F32.add (Get F32.zero (ProgressBars a) BarIndex)
                                           (F32.mul (PendingChunkValue a) F32.c1_5))
                                  F32.zero F32.one)) a) w))).

(** The sensor can scan around the scroll position: the map is usable and
    the loop counters [ScrollX - 16 .. ScrollX + 27] and
    [ScrollY - 16 .. ScrollY + 27] stay in [int32]. *)
Definition scan_ok (a : ATerminalActor) : Prop :=
  map_ok a
  /\ int32_range (ScrollX a - 16) /\ int32_range (ScrollX a + 27)
  /\ int32_range (ScrollY a - 16) /\ int32_range (ScrollY a + 27).

(** The scan finds a scary tile at the raw coordinates [(x, y)]. *)
Definition scanned_scary (a : ATerminalActor) (x y : Z) : bool :=
  IsValidIndex (ScaryActive a) (scan_index a x y)
  && Get false (ScaryActive a) (scan_index a x y).

(** Loop states of the scan: still looking for a tile at distance 0, and
    having found one. *)
Definition scan_searching (st : float * bool) : Prop :=
  not_negative (fst st) = true /\ is_nan (fst st) = false
  /\ (snd st = false -> fst st = F32.Square F32.c15).

Definition scan_at_zero (st : float * bool) : Prop :=
  is_zero (fst st) = true /\ snd st = true.

(** A 12 x 12 map with the viewport at the origin and both accumulators at
    0.5, so that the continuous centre of the viewport is the cell (5, 5),
    which is scary. *)
Definition actor_centered_on_scary : ATerminalActor :=
  set_Accumulator (F32.make 1 (-1)) (F32.make 1 (-1))
    (set_ScaryActive (Put (Init false 144) 65 true)
       (set_GlobalGridNumbers (Init 5 144) (actor_on_map 12 12))).

(** [GenerateGrid] can run: positive map sizes, and every index
    [RandY * GlobalMapWidth + RandX] a sector may compute -- [RandX] and
    [RandY] reach at most 44 past the map -- is an [int32]; then the cell
    count and the loop counters are [int32] values too. *)
Definition generation_ok (a : ATerminalActor) : Prop :=
  0 < GlobalMapWidth a /\ 0 < GlobalMapHeight a
  /\ (GlobalMapHeight a + 44) * GlobalMapWidth a + GlobalMapWidth a + 44 <= 2147483647.

(** A value a cell may hold. *)
Definition tile_value (v : Z) : Prop := 1 <= v <= 9.

(** The scary flags once the sectors of [done] -- pairs [(y, x)] of sector
    origins -- are processed, on a map [W] wide and [H] high: the cells of
    every other sector are clear, every processed sector has exactly one
    flag, at an offset of 5..45 in both directions, and that makes as many
    flags as sectors. *)
Definition sector_origin (W H : Z) (p : Z * Z) : Prop :=
  exists sy sx, p = (50 * sy, 50 * sx)
                /\ 0 <= sx /\ 50 * sx + 50 <= W /\ 0 <= sy /\ 50 * sy + 50 <= H.

Definition one_flag_in_sector (W : Z) (flags : list bool) (p : Z * Z) : Prop :=
  exists ox oy,
    5 <= ox <= 45 /\ 5 <= oy <= 45
    /\ forall dx dy, 0 <= dx < 50 -> 0 <= dy < 50 ->
         (Get false flags ((fst p + dy) * W + (snd p + dx)) = true
          <-> dx = ox /\ dy = oy).

Definition sectors_flagged (W H : Z) (done : list (Z * Z)) (flags : list bool) : Prop :=
  Z.of_nat (length flags) = W * H
  /\ Forall (sector_origin W H) done
  /\ (forall X Y, 0 <= X < W -> 0 <= Y < H ->
        ~ In (50 * (Y / 50), 50 * (X / 50)) done ->
        Get false flags (Y * W + X) = false)
  /\ Forall (one_flag_in_sector W flags) done
  /\ count_true flags = length done.

(** The sector phase of [GenerateGrid], one sector given as the pair
    [(y, x)] of its origin. *)
Definition GenerateGrid_sector_at (w : World) (p : Z * Z) : World :=
  GenerateGrid_sector 50 (fst p) w (snd p).

(** A float of the closed interval [0, 1]. *)
Definition in_unit (x : float) : bool := F32.le F32.zero x && F32.le x F32.one.



(** A day in progress with three bars full and a chunk of 1.0 pending;
    [n] files are refined already. *)
Definition world_three_bars_full (n : Z) : World :=
  with_self (set_PendingChunkValue F32.one)
    (with_self (set_ProgressBars [F32.one; F32.one; F32.one; F32.zero])
       (with_self (set_FilesRefinedCount n)
          (with_self (set_bDayActive true)
             (world_of (actor_on_map 12 12) (fun _ => 0))))).

(** The all-twos map once cells 0, 1 and the scary cell 78 are listed in
    [PrimeIndices] (the field is an editable property of the actor). *)
Definition world_with_primes : World :=
  mkWorld (mkActor [0; 78; 1] 10 10 (Init F32.zero 4) F32.zero (Init false 4)
             (Init F32.zero 4) (F32.make 5 (-1)) 2 0 false
             (ScaryActive (self world_all_twos)) F32.c15
             (GlobalGridNumbers (self world_all_twos)) 12 12 0 0
             (F32.make 1 (-1)) F32.zero F32.zero F32.zero)
          F32.zero (fun _ => 7) 0%nat [].

(** The cooldown state of the bars replaced: no function of the source
    writes it after the constructor, so this is how a cooling bar arises. *)
Definition set_cooldown (cooling : list bool) (remaining : list float)
    (a : ATerminalActor) :=
  mkActor (PrimeIndices a) (GridWidth a) (GridHeight a) (ProgressBars a)
    (PendingChunkValue a) cooling remaining
    (BarCooldownSeconds a) (FilesPerDay a) (FilesRefinedCount a)
    (bDayActive a) (ScaryActive a) (MaxSensorDistance a)
    (GlobalGridNumbers a) (GlobalMapWidth a) (GlobalMapHeight a)
    (ScrollX a) (ScrollY a) (ScrollSensitivity a) (AccumulatorX a)
    (AccumulatorY a) (DayStartTime a).


(** Primality, for comparison with [IsPrime]. *)
Definition prime_number (n : Z) : Prop :=
  1 < n /\ forall d : Z, 1 < d < n -> ~ (d | n).

(* ===================================================================== *)
(** * Arithmetic of the wrapping rule *)
(* ===================================================================== *)

Lemma wrap_mod (x N : Z) : 0 < N -> wrap x N = x mod N.
Proof.
  intros HN. unfold wrap. cbv zeta.
  destruct (Z.ltb_spec (Z.rem x N) 0) as [Hneg | Hpos].
  - apply Z.mod_unique_pos with (q := Z.quot x N - 1);
      Z.to_euclidean_division_equations; lia.
  - apply Z.mod_unique_pos with (q := Z.quot x N);
      Z.to_euclidean_division_equations; lia.
Qed.

Lemma wrap_range (x N : Z) : 0 < N -> 0 <= wrap x N < N.
Proof. intros HN. rewrite wrap_mod by assumption. apply Z.mod_pos_bound, HN. Qed.

Lemma wrap_shift (x k N : Z) : 0 < N -> wrap (x + k * N) N = wrap x N.
Proof. intros HN. rewrite !wrap_mod by assumption. apply Z_mod_plus_full. Qed.

Lemma wrap_small (x N : Z) : 0 <= x < N -> wrap x N = x.
Proof. intros Hx. rewrite wrap_mod by lia. apply Z.mod_small, Hx. Qed.

Lemma wrap_wrap_add (x k N : Z) : 0 < N -> wrap (wrap x N + k) N = wrap (x + k) N.
Proof. intros HN. rewrite !wrap_mod by assumption. apply Zplus_mod_idemp_l. Qed.

Lemma GetGlobalIndexFromScreenIndex_wrap (a : ATerminalActor) (ScreenIndex : Z) :
  GetGlobalIndexFromScreenIndex a ScreenIndex
  = wrap (ScrollY a + Z.quot ScreenIndex (GridWidth a)) (GlobalMapHeight a)
    * GlobalMapWidth a
    + wrap (ScrollX a + Z.rem ScreenIndex (GridWidth a)) (GlobalMapWidth a).
Proof. reflexivity. Qed.

Lemma GetGridNumber_wrap (a : ATerminalActor) (GridX GridY : Z) :
  GetGridNumber a GridX GridY
  = Get 0 (GlobalGridNumbers a)
        (wrap GridY (GlobalMapHeight a) * GlobalMapWidth a
         + wrap GridX (GlobalMapWidth a)).
Proof.
  unfold GetGridNumber, wrap. cbv zeta.
  unfold Get. destruct (IsValidIndex _ _); reflexivity.
Qed.

Lemma wrapped_index_range (W H x y : Z) :
  0 < W -> 0 < H -> 0 <= wrap y H * W + wrap x W < W * H.
Proof.
  intros HW HH.
  pose proof (wrap_range x W HW). pose proof (wrap_range y H HH). nia.
Qed.

(** C7.  The wrapping rule -- the truncated remainder, plus the modulus when
    it is negative -- sends every integer [x] into [[0, N)] for a modulus
    [N > 0] and gives the same result at [x], [x + N] and [x - N].  On a map
    of positive sizes whose product is an [int32], [GetGridNumber] reduces
    both coordinates by exactly this rule, so that it reads inside the grid
    and gives the same number when a coordinate moves by a whole map size
    (within [int32]); and so does [GetGlobalIndexFromScreenIndex] for every
    screen index it can split and offset without overflow. *)
Theorem wrapping_rule (x N : Z) (a : ATerminalActor) :
  0 < N ->
  (0 <= wrap x N < N)
  /\ wrap (x + N) N = wrap x N
  /\ wrap (x - N) N = wrap x N
  /\ (map_ok a ->
      forall GridX GridY,
        int32_range GridX -> int32_range GridY ->
        let index := wrap GridY (GlobalMapHeight a) * GlobalMapWidth a
                     + wrap GridX (GlobalMapWidth a) in
        GetGridNumber a GridX GridY = Get 0 (GlobalGridNumbers a) index
        /\ 0 <= index < GlobalMapWidth a * GlobalMapHeight a
        /\ (int32_range (GridX + GlobalMapWidth a) ->
            GetGridNumber a (GridX + GlobalMapWidth a) GridY = GetGridNumber a GridX GridY)
        /\ (int32_range (GridY - GlobalMapHeight a) ->
            GetGridNumber a GridX (GridY - GlobalMapHeight a) = GetGridNumber a GridX GridY))
  /\ (map_ok a ->
      forall ScreenIndex,
        screen_index_ok a ScreenIndex ->
        GetGlobalIndexFromScreenIndex a ScreenIndex
        = wrap (ScrollY a + Z.quot ScreenIndex (GridWidth a)) (GlobalMapHeight a)
          * GlobalMapWidth a
          + wrap (ScrollX a + Z.rem ScreenIndex (GridWidth a)) (GlobalMapWidth a)
        /\ 0 <= GetGlobalIndexFromScreenIndex a ScreenIndex
           < GlobalMapWidth a * GlobalMapHeight a).
Proof.
  intros HN. repeat apply conj.
  - apply wrap_range, HN.
  - apply wrap_range, HN.
  - replace (x + N) with (x + 1 * N) by ring. apply wrap_shift, HN.
  - replace (x - N) with (x + (-1) * N) by ring. apply wrap_shift, HN.
  - intros (HW & HH & _) GridX GridY _ _. cbv zeta. repeat apply conj.
    + apply GetGridNumber_wrap.
    + apply wrapped_index_range; assumption.
    + apply wrapped_index_range; assumption.
    + intros _. rewrite !GetGridNumber_wrap.
      replace (GridX + GlobalMapWidth a) with (GridX + 1 * GlobalMapWidth a) by ring.
      rewrite wrap_shift by assumption. reflexivity.
    + intros _. rewrite !GetGridNumber_wrap.
      replace (GridY - GlobalMapHeight a) with (GridY + (-1) * GlobalMapHeight a) by ring.
      rewrite wrap_shift by assumption. reflexivity.
  - intros (HW & HH & _) ScreenIndex _. repeat apply conj.
    + apply GetGlobalIndexFromScreenIndex_wrap.
    + rewrite GetGlobalIndexFromScreenIndex_wrap. apply wrapped_index_range; assumption.
    + rewrite GetGlobalIndexFromScreenIndex_wrap. apply wrapped_index_range; assumption.
Qed.

Lemma wrapping_rule_witness :
  (0 <= wrap (-1) 1000 < 1000 /\ wrap (-1 + 1000) 1000 = wrap (-1) 1000)
  /\ GetGridNumber ATerminalActor_new (-1 + 1000) 7 = GetGridNumber ATerminalActor_new (-1) 7
  /\ 0 <= GetGlobalIndexFromScreenIndex ATerminalActor_new 99 < 1000 * 1000.
Proof.
  pose proof (wrapping_rule (-1) 1000 ATerminalActor_new ltac:(lia))
    as (Hrange & Hplus & _ & Hgrid & Hscreen).
  assert (map_ok ATerminalActor_new) as Hmap by (vm_compute; intuition discriminate).
  split; [split; [exact Hrange | exact Hplus]|]. split.
  - destruct (Hgrid Hmap (-1) 7) as (_ & _ & Hshift & _);
      [unfold int32_range; lia | unfold int32_range; lia |].
    apply Hshift. vm_compute. intuition discriminate.
  - apply (Hscreen Hmap 99).
    vm_compute. intuition discriminate.
Defined.

(** C10.  The sensor never reads [MaxSensorDistance]: two actors that differ
    in that field alone get the same proximity value. *)
Theorem GetSensorProximityValue_ignores_MaxSensorDistance
    (a : ATerminalActor) (d : float) :
  GetSensorProximityValue (set_MaxSensorDistance d a) = GetSensorProximityValue a.
Proof. reflexivity. Qed.

(* ===================================================================== *)
(** * Files and days *)
(* ===================================================================== *)

Lemma ResetProgressBars_bars (w : World) :
  ProgressBars (self (ResetProgressBars w))
  = [F32.zero; F32.zero; F32.zero; F32.zero].
Proof. reflexivity. Qed.

Lemma ResetProgressBars_log (w : World) :
  Log (ResetProgressBars w)
  = Log w ++ [ProgressUpdated 0 F32.zero; ProgressUpdated 1 F32.zero;
              ProgressUpdated 2 F32.zero; ProgressUpdated 3 F32.zero].
Proof.
  unfold ResetProgressBars.
  change (for_range 0 4 1) with [0; 1; 2; 3].
  cbn. rewrite <- ?app_assoc. reflexivity.
Qed.

(** The branch of [OnFileWorkComplete] taken while files remain. *)
Lemma OnFileWorkComplete_more_files (w : World) :
  FilesRefinedCount (self w) + 1 < FilesPerDay (self w) ->
  OnFileWorkComplete w
  = BP_OnShowFileSelection
      (ResetProgressBars
         (OnFileCompleted (FilesRefinedCount (self w) + 1) (FilesPerDay (self w))
            (with_self (set_FilesRefinedCount (FilesRefinedCount (self w) + 1)) w))).
Proof.
  intros Hlt. unfold OnFileWorkComplete. cbn.
  destruct (Z.leb_spec (FilesPerDay (self w)) (FilesRefinedCount (self w) + 1));
    [lia | reflexivity].
Qed.

(** The branch of [OnFileWorkComplete] that ends the day. *)
Lemma OnFileWorkComplete_last_file (w : World) :
  FilesPerDay (self w) <= FilesRefinedCount (self w) + 1 ->
  OnFileWorkComplete w
  = BP_OnDayComplete (F32.sub (TimeSeconds w) (DayStartTime (self w)))
      (with_self (set_bDayActive false)
         (OnFileCompleted (FilesRefinedCount (self w) + 1) (FilesPerDay (self w))
            (with_self (set_FilesRefinedCount (FilesRefinedCount (self w) + 1)) w))).
Proof.
  intros Hle. unfold OnFileWorkComplete. cbn.
  destruct (Z.leb_spec (FilesPerDay (self w)) (FilesRefinedCount (self w) + 1));
    [reflexivity | lia].
Qed.

(** C3.  With [FilesPerDay = 2], a day active and no file refined yet, the
    first [OnFileWorkComplete] resets the four bars to 0 and sends the
    file-selection notification (the day stays active); the second one, in
    whatever state the bars are by then, clears the day-active flag, sends
    day-complete with the duration [now - DayStartTime], and leaves the
    bars as they were. *)
Theorem OnFileWorkComplete_two_files (w : World) :
  FilesPerDay (self w) = 2 ->
  FilesRefinedCount (self w) = 0 ->
  bDayActive (self w) = true ->
  (let w1 := OnFileWorkComplete w in
   ProgressBars (self w1) = [F32.zero; F32.zero; F32.zero; F32.zero]
   /\ Log w1 = Log w ++ [FileCompleted 1 2;
                         ProgressUpdated 0 F32.zero; ProgressUpdated 1 F32.zero;
                         ProgressUpdated 2 F32.zero; ProgressUpdated 3 F32.zero;
                         ShowFileSelection]
   /\ bDayActive (self w1) = true
   /\ FilesRefinedCount (self w1) = 1
   /\ FilesPerDay (self w1) = 2)
  /\ (forall w2 : World,
        FilesPerDay (self w2) = 2 ->
        FilesRefinedCount (self w2) = 1 ->
        let w3 := OnFileWorkComplete w2 in
        bDayActive (self w3) = false
        /\ Log w3 = Log w2 ++ [FileCompleted 2 2;
                               DayComplete (F32.sub (TimeSeconds w2)
                                                    (DayStartTime (self w2)))]
        /\ ProgressBars (self w3) = ProgressBars (self w2)).
Proof.
  intros Hper Hcount Hactive. split.
  - cbv zeta. rewrite OnFileWorkComplete_more_files by lia.
    rewrite Hper, Hcount.
    repeat split; try reflexivity.
    + unfold BP_OnShowFileSelection. cbn [emit Log].
      rewrite ResetProgressBars_log. cbn. rewrite <- ?app_assoc. reflexivity.
    + cbn. exact Hactive.
    + cbn. exact Hper.
  - intros w2 Hper2 Hcount2. cbv zeta.
    rewrite OnFileWorkComplete_last_file by lia.
    rewrite Hper2, Hcount2. cbn. rewrite <- ?app_assoc.
    repeat split; reflexivity.
Qed.

Lemma OnFileWorkComplete_two_files_witness :
  let w := with_self (set_bDayActive true) (world_of (actor_on_map 50 50) (fun _ => 0)) in
  bDayActive (self (OnFileWorkComplete w)) = true
  /\ bDayActive (self (OnFileWorkComplete (OnFileWorkComplete w))) = false.
Proof.
  intros w.
  destruct (OnFileWorkComplete_two_files w eq_refl eq_refl eq_refl)
    as [(_ & _ & Hact & Hcnt & Hper) Hsecond].
  split; [exact Hact|].
  apply (Hsecond (OnFileWorkComplete w) Hper Hcnt).
Defined.

(* ===================================================================== *)
(** * TArray lemmas *)
(* ===================================================================== *)

Section TArrayFacts.
Context {A : Type}.
Implicit Types (arr : list A) (i j : Z).

Lemma IsValidIndex_true arr i :
  IsValidIndex arr i = true <-> 0 <= i < Z.of_nat (length arr).
Proof. unfold IsValidIndex, Num. lia. Qed.

Lemma IsValidIndex_false arr i :
  IsValidIndex arr i = false <-> ~ (0 <= i < Z.of_nat (length arr)).
Proof. unfold IsValidIndex, Num. lia. Qed.

Lemma length_Put arr i (v : A) : length (Put arr i v) = length arr.
Proof. unfold Put. destruct (IsValidIndex arr i); [apply length_insert | reflexivity]. Qed.

Lemma IsValidIndex_Put arr i j (v : A) :
  IsValidIndex (Put arr i v) j = IsValidIndex arr j.
Proof. unfold IsValidIndex, Num. rewrite length_Put. reflexivity. Qed.

Lemma Get_Put_same (d : A) arr i (v : A) :
  IsValidIndex arr i = true -> Get d (Put arr i v) i = v.
Proof.
  intros Hi. unfold Get. rewrite IsValidIndex_Put, Hi.
  unfold Put. rewrite Hi.
  apply IsValidIndex_true in Hi.
  rewrite list_lookup_insert_eq by lia. reflexivity.
Qed.

Lemma Get_Put_other (d : A) arr i j (v : A) :
  i <> j -> Get d (Put arr i v) j = Get d arr j.
Proof.
  intros Hij. unfold Get. rewrite IsValidIndex_Put.
  destruct (IsValidIndex arr j) eqn:Hj; [|reflexivity].
  unfold Put. destruct (IsValidIndex arr i) eqn:Hi; [|reflexivity].
  apply IsValidIndex_true in Hi, Hj.
  rewrite list_lookup_insert_ne by lia. reflexivity.
Qed.

Lemma Get_invalid (d : A) arr i : IsValidIndex arr i = false -> Get d arr i = d.
Proof. intros Hi. unfold Get. rewrite Hi. reflexivity. Qed.

Lemma length_Init (v : A) (n : Z) : length (Init v n) = Z.to_nat n.
Proof. apply length_replicate. Qed.

Lemma Get_Init (d v : A) (n i : Z) :
  IsValidIndex (Init v n) i = true -> Get d (Init v n) i = v.
Proof.
  intros Hi. unfold Get. rewrite Hi.
  apply IsValidIndex_true in Hi. rewrite length_Init in Hi.
  unfold Init. rewrite lookup_replicate_2 by lia. reflexivity.
Qed.
End TArrayFacts.

(* ===================================================================== *)
(** * Applying a chunk leaves the grid alone *)
(* ===================================================================== *)

Lemma OnFileWorkComplete_grid_view (w : World) :
  grid_view (self (OnFileWorkComplete w)) = grid_view (self w).
Proof.
  unfold OnFileWorkComplete. cbn.
  destruct (_ <=? _); reflexivity.
Qed.

Lemma OnFileWorkComplete_rand (w : World) :
  RandCursor (OnFileWorkComplete w) = RandCursor w
  /\ RandDraws (OnFileWorkComplete w) = RandDraws w.
Proof.
  unfold OnFileWorkComplete. cbn.
  destruct (_ <=? _); split; reflexivity.
Qed.

Lemma ApplChunkToBar_grid_view (BarIndex : Z) (w : World) :
  grid_view (self (ApplChunkToBar BarIndex w)) = grid_view (self w).
Proof.
  unfold ApplChunkToBar.
  destruct (_ || _); [reflexivity|].
  destruct (_ || _); [reflexivity|].
  cbv zeta.
  match goal with
  | |- context [if F32.ge ?m F32.one then OnFileWorkComplete ?u else _] =>
      destruct (F32.ge m F32.one);
      [ pose proof (OnFileWorkComplete_grid_view u) as Hframe | ]
  end.
  - destruct (AllBarsFull _); cbn [OnAllBarsFull emit self]; rewrite Hframe; reflexivity.
  - destruct (AllBarsFull _); reflexivity.
Qed.

Lemma HandleScaryDrop_grid_view (TileIndices : list Z) (BarIndex : Z) (w : World) :
  grid_view (self (HandleScaryDrop TileIndices BarIndex w))
  = grid_view (self (snd (HandleScaryDrop_loop TileIndices w))).
Proof.
  unfold HandleScaryDrop.
  destruct (HandleScaryDrop_loop TileIndices w) as [t w1]. cbn [snd].
  cbn [OnGridScrolled emit self]. rewrite ApplChunkToBar_grid_view. reflexivity.
Qed.

(* ===================================================================== *)
(** * Dropping a scary tile *)
(* ===================================================================== *)

(** What the loop body does to a valid, scary tile. *)
Lemma HandleScaryDrop_tile_scary (t : float) (w : World) (s : Z) :
  let g := GetGlobalIndexFromScreenIndex (self w) s in
  IsValidIndex (GlobalGridNumbers (self w)) g = true ->
  IsValidIndex (ScaryActive (self w)) g = true ->
  Get false (ScaryActive (self w)) g = true ->
  HandleScaryDrop_tile (t, w) s
  = (F32.add t (F32.mul (F32.mul (F32.of_int (Get 0 (GlobalGridNumbers (self w)) g))
                                 F32.c0_005) F32.c4),
     mkWorld
       (set_GlobalGridNumbers
          (Put (GlobalGridNumbers (self w)) g (1 + RandDraws w (RandCursor w) mod 9))
          (set_ScaryActive (Put (ScaryActive (self w)) g false) (self w)))
       (TimeSeconds w) (RandDraws w) (S (RandCursor w)) (Log w)).
Proof.
  intros g Hgrid Hflag Hscary. unfold HandleScaryDrop_tile.
  fold g. rewrite Hgrid, Hflag, Hscary. reflexivity.
Qed.

Lemma RandRange_1_9 (r : Z) : 1 <= 1 + r mod 9 <= 9.
Proof. pose proof (Z.mod_pos_bound r 9). lia. Qed.

(** C2.  On a usable map, a drop of the single tile [s] of the screen,
    scary and of value 4, computes the contribution [4 * 0.005f * 4.0f],
    which is the float [0.08f]; it clears the scary flag of the cell,
    replaces its value by the next [RandRange(1, 9)] draw, a value of
    [1..9], and [IsIndexScary s] is false afterwards, whichever bar the drop
    goes to. *)
Theorem HandleScaryDrop_scary_four (w : World) (s BarIndex : Z) :
  let g := GetGlobalIndexFromScreenIndex (self w) s in
  map_ok (self w) ->
  screen_index_ok (self w) s ->
  0 <= s < GridWidth (self w) * GridHeight (self w) ->
  IsValidIndex (GlobalGridNumbers (self w)) g = true ->
  IsValidIndex (ScaryActive (self w)) g = true ->
  Get 0 (GlobalGridNumbers (self w)) g = 4 ->
  IsIndexScary (self w) s = true ->
  fst (HandleScaryDrop_loop [s] w)
  = F32.mul (F32.mul (F32.of_int 4) F32.c0_005) F32.c4
  /\ fst (HandleScaryDrop_loop [s] w) = c0_08
  /\ (let a' := self (HandleScaryDrop [s] BarIndex w) in
      Get false (ScaryActive a') g = false
      /\ IsIndexScary a' s = false
      /\ Get 0 (GlobalGridNumbers a') g = 1 + RandDraws w (RandCursor w) mod 9
      /\ 1 <= Get 0 (GlobalGridNumbers a') g <= 9).
Proof.
  intros g _ _ _ Hgrid Hflag Hfour Hscary.
  assert (Get false (ScaryActive (self w)) g = true) as Hbit.
  { unfold IsIndexScary in Hscary. fold g in Hscary.
    rewrite Hflag in Hscary. exact Hscary. }
  pose proof (HandleScaryDrop_tile_scary F32.zero w s Hgrid Hflag Hbit) as Hstep.
  fold g in Hstep. rewrite Hfour in Hstep.
  unfold HandleScaryDrop_loop. cbn [fold_left]. rewrite Hstep. cbn [fst].
  split; [reflexivity|]. split; [reflexivity|].
  cbv zeta.
  pose proof (HandleScaryDrop_grid_view [s] BarIndex w) as Hview.
  unfold HandleScaryDrop_loop in Hview. cbn [fold_left] in Hview.
  rewrite Hstep in Hview. cbn [snd self] in Hview.
  unfold grid_view in Hview.
  injection Hview as Hg Hs Hsx Hsy Hgw Hgh Hmw Hmh.
  cbn in Hg, Hs, Hsx, Hsy, Hgw, Hgh, Hmw, Hmh.
  assert (GetGlobalIndexFromScreenIndex (self (HandleScaryDrop [s] BarIndex w)) s = g)
    as Hsame.
  { unfold g, GetGlobalIndexFromScreenIndex.
    rewrite Hsx, Hsy, Hgw, Hmw, Hmh. reflexivity. }
  assert (Get false (ScaryActive (self (HandleScaryDrop [s] BarIndex w))) g = false)
    as Hcleared.
  { rewrite Hs. apply Get_Put_same, Hflag. }
  assert (Get 0 (GlobalGridNumbers (self (HandleScaryDrop [s] BarIndex w))) g
          = 1 + RandDraws w (RandCursor w) mod 9) as Hvalue.
  { rewrite Hg. apply Get_Put_same, Hgrid. }
  repeat split.
  - exact Hcleared.
  - unfold IsIndexScary. rewrite Hsame, Hcleared.
    match goal with |- (if ?c then _ else _) = _ => destruct c; reflexivity end.
  - exact Hvalue.
  - rewrite Hvalue. apply RandRange_1_9.
  - rewrite Hvalue. apply RandRange_1_9.
Qed.


Lemma HandleScaryDrop_scary_four_witness :
  fst (HandleScaryDrop_loop [88] world_all_fours) = c0_08
  /\ IsIndexScary (self world_all_fours) 88 = true
  /\ IsIndexScary (self (HandleScaryDrop [88] 0 world_all_fours)) 88 = false.
Proof.
  assert (IsIndexScary (self world_all_fours) 88 = true) as Hscary
    by (vm_compute; reflexivity).
  pose proof (HandleScaryDrop_scary_four world_all_fours 88 0) as H.
  cbv zeta in H.
  specialize (H ltac:(vm_compute; intuition discriminate)
                ltac:(vm_compute; intuition discriminate)
                ltac:(vm_compute; intuition discriminate)
                ltac:(vm_compute; reflexivity) ltac:(vm_compute; reflexivity)
                ltac:(vm_compute; reflexivity) Hscary).
  split; [apply H|]. split; [exact Hscary | apply H].
Defined.

(* ===================================================================== *)
(** * Invalid inputs *)
(* ===================================================================== *)


Lemma ApplChunkToBar_invalid_bar (BarIndex : Z) (w : World) :
  IsValidIndex (ProgressBars (self w)) BarIndex = false ->
  ApplChunkToBar BarIndex w = w.
Proof.
  intros Hbar. unfold ApplChunkToBar. rewrite Hbar.
  destruct (_ || _); reflexivity.
Qed.

Lemma ApplChunkToBar_no_chunk (BarIndex : Z) (w : World) :
  F32.le (PendingChunkValue (self w)) F32.zero = true ->
  ApplChunkToBar BarIndex w = w.
Proof.
  intros Hle. unfold ApplChunkToBar. rewrite Hle, orb_true_r. reflexivity.
Qed.





(* ===================================================================== *)
(** * Completing a file *)
(* ===================================================================== *)

(** Lifting a property of the loop state through a [fold_left]. *)
Lemma fold_left_preserves {A B : Type} (P : A -> Prop) (f : A -> B -> A)
    (l : list B) (a : A) :
  (forall a x, P a -> P (f a x)) -> P a -> P (fold_left f l a).
Proof.
  intros Hstep. revert a. induction l as [|x l IH]; intros a Ha; [exact Ha|].
  cbn [fold_left]. apply IH, Hstep, Ha.
Qed.

Lemma AllBarsFull_after_reset (e : Event) (w : World) :
  AllBarsFull (self (emit e (ResetProgressBars w))) = false.
Proof. reflexivity. Qed.

(** [ApplChunkToBar] once its two guards are passed. *)
Lemma ApplChunkToBar_applies (BarIndex : Z) (w : World) :
  bDayActive (self w) = true ->
  F32.le (PendingChunkValue (self w)) F32.zero = false ->
  IsValidIndex (ProgressBars (self w)) BarIndex = true ->
  F32.ge (Get F32.zero (ProgressBars (self w)) BarIndex) F32.one = false ->
  ApplChunkToBar BarIndex w
  = let w1 := chunk_applied BarIndex w in
    let w2 := if F32.ge (GetMasterProgress (self w1)) F32.one
              then OnFileWorkComplete w1 else w1 in
    if AllBarsFull (self w2) then OnAllBarsFull w2 else w2.
Proof.
  intros Hday Hchunk Hvalid Hroom.
  unfold ApplChunkToBar. rewrite Hday, Hchunk, Hvalid, Hroom. cbn [negb orb].
  unfold chunk_applied. cbn [with_self self set_PendingChunkValue set_ProgressBars ProgressBars OnChunkConsumed emit].
  rewrite Get_Put_same by exact Hvalid. reflexivity.
Qed.

(** What [ApplChunkToBar] does with a chunk that completes a file which is
    not the last of the day: [OnFileWorkComplete] resets the bars before
    the all-bars-full test runs, so the hook is not called. *)
Lemma ApplChunkToBar_completes_file_eq (BarIndex : Z) (w : World) :
  bDayActive (self w) = true ->
  F32.le (PendingChunkValue (self w)) F32.zero = false ->
  IsValidIndex (ProgressBars (self w)) BarIndex = true ->
  F32.ge (Get F32.zero (ProgressBars (self w)) BarIndex) F32.one = false ->
  F32.ge (GetMasterProgress (self (chunk_applied BarIndex w))) F32.one = true ->
  FilesRefinedCount (self w) + 1 < FilesPerDay (self w) ->
  ApplChunkToBar BarIndex w = BP_OnShowFileSelection
      (ResetProgressBars
         (OnFileCompleted (FilesRefinedCount (self w) + 1) (FilesPerDay (self w))
            (with_self (set_FilesRefinedCount (FilesRefinedCount (self w) + 1)) (chunk_applied BarIndex w)))).
Proof.
  intros Hday Hchunk Hvalid Hroom Hmaster Hmore.
  rewrite ApplChunkToBar_applies by assumption. cbv zeta.
  rewrite Hmaster.
  rewrite OnFileWorkComplete_more_files by exact Hmore.
  unfold BP_OnShowFileSelection.
  rewrite AllBarsFull_after_reset. reflexivity.
Qed.


Lemma ApplChunkToBar_completes_file (BarIndex : Z) (w : World) :
  bDayActive (self w) = true ->
  F32.le (PendingChunkValue (self w)) F32.zero = false ->
  IsValidIndex (ProgressBars (self w)) BarIndex = true ->
  F32.ge (Get F32.zero (ProgressBars (self w)) BarIndex) F32.one = false ->
  F32.ge (GetMasterProgress (self (chunk_applied BarIndex w))) F32.one = true ->
  FilesRefinedCount (self w) + 1 < FilesPerDay (self w) ->
  Log (ApplChunkToBar BarIndex w)
  = Log (chunk_applied BarIndex w)
    ++ [FileCompleted (FilesRefinedCount (self w) + 1) (FilesPerDay (self w));
        ProgressUpdated 0 F32.zero; ProgressUpdated 1 F32.zero;
        ProgressUpdated 2 F32.zero; ProgressUpdated 3 F32.zero;
        ShowFileSelection]
  /\ ProgressBars (self (ApplChunkToBar BarIndex w))
     = [F32.zero; F32.zero; F32.zero; F32.zero].
Proof.
  intros Hday Hchunk Hvalid Hroom Hmaster Hmore.
  rewrite ApplChunkToBar_completes_file_eq by assumption.
  split.
  - unfold BP_OnShowFileSelection. cbn [emit Log]. rewrite ResetProgressBars_log.
    cbn [OnFileCompleted emit Log with_self].
    rewrite <- ?app_assoc. reflexivity.
  - reflexivity.
Qed.

(** When the completed file is the last of the day the bars stay full and
    the hook is called, once. *)
Lemma ApplChunkToBar_completes_day (BarIndex : Z) (w : World) :
  bDayActive (self w) = true ->
  F32.le (PendingChunkValue (self w)) F32.zero = false ->
  IsValidIndex (ProgressBars (self w)) BarIndex = true ->
  F32.ge (Get F32.zero (ProgressBars (self w)) BarIndex) F32.one = false ->
  F32.ge (GetMasterProgress (self (chunk_applied BarIndex w))) F32.one = true ->
  AllBarsFull (self (chunk_applied BarIndex w)) = true ->
  FilesPerDay (self w) <= FilesRefinedCount (self w) + 1 ->
  Log (ApplChunkToBar BarIndex w)
  = Log (chunk_applied BarIndex w)
    ++ [FileCompleted (FilesRefinedCount (self w) + 1) (FilesPerDay (self w));
        DayComplete (F32.sub (TimeSeconds w) (DayStartTime (self w)));
        AllBarsFullHook]
  /\ bDayActive (self (ApplChunkToBar BarIndex w)) = false
  /\ ProgressBars (self (ApplChunkToBar BarIndex w))
     = ProgressBars (self (chunk_applied BarIndex w)).
Proof.
  intros Hday Hchunk Hvalid Hroom Hmaster Hfull Hlast.
  rewrite ApplChunkToBar_applies by assumption. cbv zeta.
  rewrite Hmaster.
  rewrite OnFileWorkComplete_last_file by exact Hlast.
  unfold BP_OnDayComplete, OnFileCompleted.
  change (AllBarsFull (self (emit ?e (with_self (set_bDayActive false) (emit ?e' (with_self ?f ?u))))))
    with (AllBarsFull (self u)).
  rewrite Hfull.
  cbn [OnAllBarsFull emit Log self with_self set_bDayActive set_FilesRefinedCount
       bDayActive ProgressBars TimeSeconds DayStartTime].
  rewrite <- ?app_assoc. repeat apply conj; reflexivity.
Qed.

(** C1 at the failing input.  A day is active with two files to refine and
    none refined; whole-screen drops have brought bars 0, 1 and 2 to
    exactly 1.0.  The drop that brings bar 3 to 1.0 sends one
    file-completed notification and no all-bars-full hook call: the log of
    the whole sequence holds one [FileCompleted] and no [AllBarsFullHook],
    and the bars are back at 0. *)
Theorem all_bars_full_hook_lost_on_reset :
  let w3 := HandleScaryDrop whole_screen 2
              (HandleScaryDrop whole_screen 1
                 (HandleScaryDrop whole_screen 0 world_all_nines)) in
  let w4 := HandleScaryDrop whole_screen 3 w3 in
  (bDayActive (self world_all_nines) = true
   /\ FilesPerDay (self world_all_nines) = 2
   /\ FilesRefinedCount (self world_all_nines) = 0)
  /\ ProgressBars (self w3) = [F32.one; F32.one; F32.one; F32.zero]
  /\ Log w4 = Log w3 ++ [ChunkConsumed; ProgressUpdated 3 F32.one;
                         FileCompleted 1 2;
                         ProgressUpdated 0 F32.zero; ProgressUpdated 1 F32.zero;
                         ProgressUpdated 2 F32.zero; ProgressUpdated 3 F32.zero;
                         ShowFileSelection; GridScrolled]
  /\ count_events Event_eqb_FileCompleted (Log w4) = 1%nat
  /\ count_events Event_eqb_AllBarsFull (Log w4) = 0%nat
  /\ ProgressBars (self w4) = [F32.zero; F32.zero; F32.zero; F32.zero].
Proof.
  cbv zeta. repeat apply conj; vm_compute; reflexivity.
Qed.

(* ===================================================================== *)
(** * Prime highlighting *)
(* ===================================================================== *)

Lemma GenerateGrid_fill_PrimeIndices (w : World) (i : Z) :
  PrimeIndices (self (GenerateGrid_fill w i)) = PrimeIndices (self w).
Proof. reflexivity. Qed.

Lemma GenerateGrid_sector_PrimeIndices (SectorSize y : Z) (w : World) (x : Z) :
  PrimeIndices (self (GenerateGrid_sector SectorSize y w x)) = PrimeIndices (self w).
Proof.
  unfold GenerateGrid_sector. cbn.
  destruct (IsValidIndex _ _); reflexivity.
Qed.

(** [GenerateGrid] does not write [PrimeIndices]. *)
Lemma GenerateGrid_PrimeIndices (w : World) :
  PrimeIndices (self (GenerateGrid w)) = PrimeIndices (self w).
Proof.
  unfold GenerateGrid. cbv zeta. cbn [OnGridScrolled emit self].
  match goal with
  | |- PrimeIndices (self (fold_left ?f ?ys (fold_left ?g ?cells ?w0))) = _ =>
      apply (fold_left_preserves
               (fun u => PrimeIndices (self u) = PrimeIndices (self w)) f ys);
      [ intros u y Hu;
        apply (fold_left_preserves
                 (fun v => PrimeIndices (self v) = PrimeIndices (self w)));
        [ intros v x Hv; rewrite GenerateGrid_sector_PrimeIndices; exact Hv
        | exact Hu ]
      | apply (fold_left_preserves
                 (fun v => PrimeIndices (self v) = PrimeIndices (self w)) g cells);
        [ intros v i Hv; rewrite GenerateGrid_fill_PrimeIndices; exact Hv
        | reflexivity ] ]
  end.
Qed.

Lemma HighlightRandomPrime_no_primes (w : World) :
  PrimeIndices (self w) = [] -> HighlightRandomPrime w = w.
Proof. intros Hnone. unfold HighlightRandomPrime. rewrite Hnone. reflexivity. Qed.

(** C5 at the failing input.  Whatever the random draws and the clock, the
    grid generated for a freshly constructed actor leaves [PrimeIndices]
    empty, and [HighlightRandomPrime] then changes nothing.  On the 12 x 12
    map whose cells all hold the prime 2, cell (0, 0) is prime and not
    scary, yet [HighlightRandomPrime] activates no cell. *)
Theorem HighlightRandomPrime_never_fires (clock : float) (draws : nat -> Z) :
  let w := GenerateGrid (mkWorld ATerminalActor_new clock draws 0%nat []) in
  (PrimeIndices (self w) = [] /\ HighlightRandomPrime w = w)
  /\ (IsPrime (GetGridNumber (self world_all_twos) 0 0) = true
      /\ IsIndexScary (self world_all_twos) 0 = false
      /\ count_true (ScaryActive (self world_all_twos)) = 1%nat
      /\ count_true (ScaryActive (self (HighlightRandomPrime world_all_twos))) = 1%nat
      /\ HighlightRandomPrime world_all_twos = world_all_twos).
Proof.
  cbv zeta.
  assert (PrimeIndices (self (GenerateGrid (mkWorld ATerminalActor_new clock draws 0%nat [])))
          = []) as Hnone by (rewrite GenerateGrid_PrimeIndices; reflexivity).
  split; [split; [exact Hnone | apply HighlightRandomPrime_no_primes, Hnone]|].
  repeat apply conj; vm_compute; reflexivity.
Qed.

(* ===================================================================== *)
(** * Signs of binary32 results *)
(* ===================================================================== *)

Lemma binary_round_aux_not_negative (mx ex : Z) (lx : location) :
  not_negative (binary_round_aux F32.prec F32.emax false mx ex lx) = true.
Proof.
  unfold binary_round_aux.
  destruct (shr_fexp F32.prec F32.emax mx ex lx) as [mrs' e'].
  destruct (shr_fexp F32.prec F32.emax _ e' loc_Exact) as [mrs'' e''].
  destruct (shr_m mrs''); [reflexivity | | reflexivity].
  destruct (Z.leb e'' _); reflexivity.
Qed.

Lemma Square_not_negative (x : float) : not_negative (F32.Square x) = true.
Proof.
  unfold F32.Square, F32.mul.
  destruct x as [s | s | | s m e]; cbn [SFmul]; rewrite ?xorb_nilpotent;
    try reflexivity.
  apply binary_round_aux_not_negative.
Qed.

Lemma add_not_negative (x y : float) :
  not_negative x = true -> not_negative y = true ->
  not_negative (F32.add x y) = true.
Proof.
  unfold F32.add.
  destruct x as [sx | sx | | sx mx ex], y as [sy | sy | | sy my ey];
    cbn [not_negative SFadd]; intros Hx Hy; try reflexivity; try assumption.
  - destruct sx, sy; reflexivity.
  - destruct sx, sy; try discriminate; reflexivity.
  - destruct sx, sy; try discriminate.
    cbn [cond_Zopp].
    unfold binary_normalize.
    destruct (Z.pos _ + Z.pos _) as [|m|m] eqn:Hsum; [reflexivity | | lia].
    clear Hsum. unfold binary_round.
    destruct (shl_align m _ _) as [mz ez].
    apply binary_round_aux_not_negative.
Qed.

Lemma not_negative_not_below_zero (x : float) (s : bool) :
  not_negative x = true -> F32.lt x (S754_zero s) = false.
Proof.
  destruct x as [sx | sx | | sx mx ex]; cbn; intros Hx; try reflexivity;
    destruct sx; try discriminate; reflexivity.
Qed.

Lemma lt_not_nan (x y : float) : F32.lt x y = true -> is_nan x = false.
Proof. destruct x; [reflexivity | reflexivity | discriminate | reflexivity]. Qed.

(** A number that is not negative and not above [+0] is a zero. *)
Lemma not_above_zero_is_zero (x : float) :
  not_negative x = true -> is_nan x = false ->
  F32.lt F32.zero x = false -> is_zero x = true.
Proof.
  destruct x as [sx | sx | | sx mx ex]; cbn; intros Hx Hnan Hlt;
    try reflexivity; try discriminate;
    destruct sx; discriminate.
Qed.

Lemma Square_zero (x : float) : is_zero x = true -> F32.Square x = F32.zero.
Proof.
  destruct x as [s | | |]; try discriminate. intros _.
  unfold F32.Square, F32.mul. cbn. rewrite xorb_nilpotent. reflexivity.
Qed.

(** The value the sensor returns once the smallest squared distance is 0. *)
Lemma proximity_of_zero_distance (m : float) :
  is_zero m = true ->
  F32.Clamp (F32.sub F32.one (F32.div (F32.sqrt m) F32.c15)) F32.zero F32.one
  = F32.one.
Proof.
  destruct m as [s | | |]; try discriminate. intros _.
  destruct s; vm_compute; reflexivity.
Qed.

(* ===================================================================== *)
(** * The proximity sensor *)
(* ===================================================================== *)

Lemma in_for_range_1 (lo hi x : Z) : lo <= x < hi -> In x (for_range lo hi 1).
Proof.
  intros Hx. unfold for_range. apply in_map_iff.
  exists (Z.to_nat (x - lo)). split; [lia|].
  apply in_seq. rewrite Z.div_1_r. lia.
Qed.

Lemma fold_left_fixed {A B : Type} (f : A -> B -> A) (l : list B) (a : A) :
  (forall x, In x l -> f a x = a) -> fold_left f l a = a.
Proof.
  induction l as [|x l IH]; intros Hfix; [reflexivity|].
  cbn [fold_left]. rewrite (Hfix x) by (left; reflexivity).
  apply IH. intros x' Hx'. apply Hfix. right. exact Hx'.
Qed.

(** The loop body of the scan, with the index named. *)
Lemma GetSensorProximityValue_cell_eq (a : ATerminalActor) (cx cy : float)
    (y : Z) (st : float * bool) (x : Z) :
  GetSensorProximityValue_cell a cx cy y st x
  = if scanned_scary a x y
    then let d := F32.add (F32.Square (F32.sub (F32.of_int x) cx))
                          (F32.Square (F32.sub (F32.of_int y) cy)) in
         if F32.lt d (fst st) then (d, true) else st
    else st.
Proof. destruct st as [m found]. reflexivity. Qed.

Lemma cell_keeps_searching (a : ATerminalActor) (cx cy : float) (y : Z)
    (st : float * bool) (x : Z) :
  scan_searching st -> scan_searching (GetSensorProximityValue_cell a cx cy y st x).
Proof.
  intros Hst. rewrite GetSensorProximityValue_cell_eq.
  destruct (scanned_scary a x y); [|exact Hst]. cbv zeta.
  destruct (F32.lt _ (fst st)) eqn:Hlt; [|exact Hst].
  repeat apply conj; cbn [fst snd].
  - apply add_not_negative; apply Square_not_negative.
  - apply (lt_not_nan _ _ Hlt).
  - discriminate.
Qed.

Lemma cell_keeps_zero (a : ATerminalActor) (cx cy : float) (y : Z)
    (st : float * bool) (x : Z) :
  scan_at_zero st -> GetSensorProximityValue_cell a cx cy y st x = st.
Proof.
  intros [Hzero Hfound]. rewrite GetSensorProximityValue_cell_eq.
  destruct (scanned_scary a x y); [|reflexivity]. cbv zeta.
  destruct (fst st) as [s | | |] eqn:Hm; try discriminate.
  rewrite not_negative_not_below_zero; [reflexivity|].
  apply add_not_negative; apply Square_not_negative.
Qed.

Lemma cell_reaches_zero (a : ATerminalActor) (cx cy : float) (y : Z)
    (st : float * bool) (x : Z) :
  scan_searching st ->
  scanned_scary a x y = true ->
  is_zero (F32.sub (F32.of_int x) cx) = true ->
  is_zero (F32.sub (F32.of_int y) cy) = true ->
  scan_at_zero (GetSensorProximityValue_cell a cx cy y st x).
Proof.
  intros (Hpos & Hnan & Hinit) Hscary Hx Hy.
  rewrite GetSensorProximityValue_cell_eq, Hscary. cbv zeta.
  rewrite (Square_zero _ Hx), (Square_zero _ Hy).
  change (F32.add F32.zero F32.zero) with F32.zero.
  destruct (F32.lt F32.zero (fst st)) eqn:Hlt; [split; reflexivity|].
  pose proof (not_above_zero_is_zero _ Hpos Hnan Hlt) as Hzero.
  split; [exact Hzero|].
  destruct (snd st) eqn:Hfound; [reflexivity|].
  rewrite (Hinit eq_refl) in Hzero. discriminate Hzero.
Qed.

(** The whole scan, when some scanned cell is scary and at distance 0. *)
Lemma scan_reaches_zero (a : ATerminalActor) (cx cy : float) (xs ys : list Z)
    (x0 y0 : Z) (st : float * bool) :
  In x0 xs -> In y0 ys ->
  scanned_scary a x0 y0 = true ->
  is_zero (F32.sub (F32.of_int x0) cx) = true ->
  is_zero (F32.sub (F32.of_int y0) cy) = true ->
  scan_searching st ->
  scan_at_zero
    (fold_left (fun st y => fold_left (GetSensorProximityValue_cell a cx cy y) xs st)
               ys st).
Proof.
  intros Hx0 Hy0 Hscary Hdx Hdy Hst.
  apply in_split in Hx0 as (xs1 & xs2 & ->).
  apply in_split in Hy0 as (ys1 & ys2 & ->).
  rewrite fold_left_app. cbn [fold_left].
  apply (fold_left_preserves scan_at_zero).
  { intros st1 y Hz. apply (fold_left_preserves scan_at_zero); [|exact Hz].
    intros st2 x Hz2. rewrite cell_keeps_zero; assumption. }
  rewrite fold_left_app. cbn [fold_left].
  apply (fold_left_preserves scan_at_zero).
  { intros st2 x Hz2. rewrite cell_keeps_zero; assumption. }
  apply cell_reaches_zero; try assumption.
  apply (fold_left_preserves scan_searching).
  { intros st2 x Hs2. apply cell_keeps_searching, Hs2. }
  apply (fold_left_preserves scan_searching); [|exact Hst].
  intros st1 y Hs1. apply (fold_left_preserves scan_searching); [|exact Hs1].
  intros st2 x Hs2. apply cell_keeps_searching, Hs2.
Qed.

(** The whole scan, when no scanned cell is scary. *)
Lemma scan_finds_nothing (a : ATerminalActor) (cx cy : float) (xs ys : list Z)
    (st : float * bool) :
  (forall x y, In x xs -> In y ys -> scanned_scary a x y = false) ->
  fold_left (fun st y => fold_left (GetSensorProximityValue_cell a cx cy y) xs st)
            ys st = st.
Proof.
  intros Hnone. apply fold_left_fixed. intros y Hy.
  apply fold_left_fixed. intros x Hx.
  rewrite GetSensorProximityValue_cell_eq, (Hnone x y Hx Hy). reflexivity.
Qed.

(** C8.  Where the sensor can scan, [GetSensorProximityValue] is 1.0 as
    soon as one scanned cell holds a scary tile whose raw coordinates are
    exactly the continuous centre of the viewport (both differences to the
    centre are 0), and it is 0.0 when no scanned cell holds a scary tile,
    that is, when every scary tile lies outside the scan window. *)
Theorem GetSensorProximityValue_extremes (a : ATerminalActor) :
  scan_ok a ->
  (forall x y,
     in_scan_window (ScrollX a) x -> in_scan_window (ScrollY a) y ->
     scanned_scary a x y = true ->
     is_zero (F32.sub (F32.of_int x) (view_center (ScrollX a) (AccumulatorX a))) = true ->
     is_zero (F32.sub (F32.of_int y) (view_center (ScrollY a) (AccumulatorY a))) = true ->
     GetSensorProximityValue a = F32.one)
  /\ ((forall x y,
         in_scan_window (ScrollX a) x -> in_scan_window (ScrollY a) y ->
         scanned_scary a x y = false) ->
      GetSensorProximityValue a = F32.zero).
Proof.
  intros _. split.
  - intros x y Hx Hy Hscary Hdx Hdy.
    unfold GetSensorProximityValue. cbv zeta.
    match goal with
    | |- (let '(m, f) := ?scan in _) = _ =>
        assert (scan_at_zero scan) as Hzero
    end.
    { apply (scan_reaches_zero a _ _ _ _ x y); try assumption.
      - apply in_for_range_1. unfold in_scan_window in Hx. lia.
      - apply in_for_range_1. unfold in_scan_window in Hy. lia.
      - repeat apply conj; [reflexivity | reflexivity | reflexivity]. }
    destruct (fold_left _ _ _) as [m found]. destruct Hzero as [Hm Hfound].
    cbn [fst snd] in Hm, Hfound. rewrite Hfound. cbn [negb].
    apply proximity_of_zero_distance, Hm.
  - intros Hnone.
    unfold GetSensorProximityValue. cbv zeta.
    rewrite scan_finds_nothing; [reflexivity|].
    intros x y Hx Hy. apply Hnone.
    + unfold for_range in Hx. apply in_map_iff in Hx as (k & <- & Hk).
      apply in_seq in Hk. rewrite Z.div_1_r in Hk. unfold in_scan_window. lia.
    + unfold for_range in Hy. apply in_map_iff in Hy as (k & <- & Hk).
      apply in_seq in Hk. rewrite Z.div_1_r in Hk. unfold in_scan_window. lia.
Qed.

Lemma GetSensorProximityValue_extremes_witness :
  GetSensorProximityValue actor_centered_on_scary = F32.one
  /\ GetSensorProximityValue (actor_on_map 12 12) = F32.zero.
Proof.
  split.
  - destruct (GetSensorProximityValue_extremes actor_centered_on_scary) as [Hone _].
    + vm_compute. intuition discriminate.
    + apply (Hone 5 5); vm_compute; intuition discriminate.
  - destruct (GetSensorProximityValue_extremes (actor_on_map 12 12)) as [_ Hzero].
    + vm_compute. intuition discriminate.
    + apply Hzero. intros x y _ _. unfold scanned_scary.
      change (ScaryActive (actor_on_map 12 12)) with (Init false 100).
      destruct (IsValidIndex (Init false 100) _) eqn:Hvalid; [|reflexivity].
      rewrite (Get_Init false false 100 _ Hvalid). reflexivity.
Defined.

(* ===================================================================== *)
(** * The scroll accumulator *)
(* ===================================================================== *)

(** [F32.trunc] is the rational value with its fraction cut off. *)
Lemma trunc_within_one (x : float) :
  (inject_Z (F32.trunc x) - 1 < F32.to_Q x < inject_Z (F32.trunc x) + 1)%Q.
Proof.
  destruct x as [s | s | | s m e];
    [cbn; change (inject_Z 0) with 0%Q; lra ..|].
  assert (inject_Z (match e with
                    | Zneg p => Z.shiftr (Zpos m) (Zpos p)
                    | _ => Z.shiftl (Zpos m) e
                    end)
          <= match e with
             | Zneg p => Qmake (Zpos m) (2 ^ p)%positive
             | _ => inject_Z (Zpos m * 2 ^ e)
             end
          < inject_Z (match e with
                      | Zneg p => Z.shiftr (Zpos m) (Zpos p)
                      | _ => Z.shiftl (Zpos m) e
                      end) + 1)%Q as Hmag.
  { destruct e as [|p|p].
    - rewrite Z.shiftl_0_r, Z.pow_0_r, Z.mul_1_r. lra.
    - rewrite Z.shiftl_mul_pow2 by lia. lra.
    - rewrite Z.shiftr_div_pow2 by lia.
      rewrite <- Pos2Z.inj_pow.
      pose proof (Z.mul_div_le (Zpos m) (Zpos (2 ^ p)) ltac:(lia)) as Hlo.
      pose proof (Z.mul_succ_div_gt (Zpos m) (Zpos (2 ^ p)) ltac:(lia)) as Hhi.
      unfold Qle, Qlt, Qplus, inject_Z. cbn [Qnum Qden].
      split; nia. }
  cbn [F32.trunc F32.to_Q]. cbv zeta.
  destruct s.
  - rewrite inject_Z_opp. lra.
  - lra.
Qed.

Lemma to_Q_zero (x : float) :
  F32.is_finite x = true -> (F32.to_Q x == 0)%Q -> is_zero x = true.
Proof.
  destruct x as [s | s | | s m e]; try discriminate; [reflexivity|].
  intros _ Hq. exfalso.
  assert (0 < match e with
              | Zneg p => Qmake (Zpos m) (2 ^ p)%positive
              | _ => inject_Z (Zpos m * 2 ^ e)
              end)%Q as Hpos.
  { destruct e as [|p|p].
    - unfold Qlt, inject_Z. cbn. lia.
    - unfold Qlt, inject_Z. cbn [Qnum Qden].
      pose proof (Z.pow_pos_nonneg 2 (Zpos p)). lia.
    - unfold Qlt. cbn. lia. }
  cbn [F32.to_Q] in Hq. cbv zeta in Hq. destruct s; lra.
Qed.

Lemma is_zero_to_Q (x : float) : is_zero x = true -> (F32.to_Q x == 0)%Q.
Proof. destruct x; try discriminate. intros _. reflexivity. Qed.

Lemma inject_Z_small (z : Z) : (-1 < inject_Z z < 1)%Q -> z = 0.
Proof.
  intros [Hlo Hhi].
  change (-1)%Q with (inject_Z (-1)) in Hlo. change 1%Q with (inject_Z 1) in Hhi.
  rewrite <- Zlt_Qlt in Hlo, Hhi. lia.
Qed.

(** One exact step: the scroll position takes the integer part of the
    accumulator, which keeps the rest. *)
Lemma axis_step_exact_spec (s : float) (N : Z) (st : float * Z) (d : float) :
  0 < N ->
  axis_step_exact s st d = true ->
  exists k : Z,
    snd (axis_step s N st d) = (snd st + k) mod N
    /\ (inject_Z k + F32.to_Q (fst (axis_step s N st d))
        == F32.to_Q (fst st) + scaled_delta s d)%Q
    /\ (-1 < F32.to_Q (fst (axis_step s N st d)) < 1)%Q
    /\ F32.is_finite (fst (axis_step s N st d)) = true.
Proof.
  intros HN Hexact. unfold axis_step_exact in Hexact. cbv zeta in Hexact.
  repeat (apply andb_prop in Hexact as [Hexact ?]).
  match goal with H : Qeq_bool _ (_ - _) = true |- _ => apply Qeq_bool_eq in H; rename H into Hrest end.
  match goal with H : Qeq_bool _ _ = true |- _ => apply Qeq_bool_eq in H; rename H into Hsum end.
  match goal with H : (F32.to_int _ =? _) = true |- _ => apply Z.eqb_eq in H; rename H into Hcast end.
  match goal with H : F32.is_finite (F32.sub _ _) = true |- _ => rename H into Hfin end.
  unfold axis_step. cbn [fst snd].
  set (acc1 := F32.add (fst st) (F32.mul (F32.mul d F32.neg_one) s)) in *.
  exists (F32.to_int acc1). repeat apply conj.
  - apply wrap_mod, HN.
  - rewrite Hrest, Hcast, <- Hsum. ring.
  - rewrite Hrest. pose proof (trunc_within_one acc1). lra.
  - rewrite Hrest. pose proof (trunc_within_one acc1). lra.
  - exact Hfin.
Qed.

(** An exact run: the steps taken and what is left in the accumulator add
    up to the sum of the scaled deltas. *)
Lemma axis_run_exact_spec (s : float) (N : Z) (ds : list float) (st : float * Z) :
  0 < N ->
  axis_run_exact s N st ds = true ->
  F32.is_finite (fst st) = true ->
  (-1 < F32.to_Q (fst st) < 1)%Q ->
  0 <= snd st < N ->
  exists K : Z,
    snd (fold_left (axis_step s N) ds st) = (snd st + K) mod N
    /\ (inject_Z K + F32.to_Q (fst (fold_left (axis_step s N) ds st))
        == F32.to_Q (fst st) + scaled_sum s ds)%Q
    /\ (-1 < F32.to_Q (fst (fold_left (axis_step s N) ds st)) < 1)%Q
    /\ F32.is_finite (fst (fold_left (axis_step s N) ds st)) = true.
Proof.
  intros HN. revert st. induction ds as [|d ds IH]; intros st Hexact Hfin Hfrac Hpos.
  - exists 0. cbn [fold_left scaled_sum fold_right]. repeat apply conj; try tauto.
    + rewrite Z.add_0_r. symmetry. apply Z.mod_small, Hpos.
    + change (inject_Z 0) with 0%Q. lra.
  - cbn [axis_run_exact] in Hexact. apply andb_prop in Hexact as [Hstep Hrun].
    destruct (axis_step_exact_spec s N st d HN Hstep) as (k & Hk & Hksum & Hkfrac & Hkfin).
    destruct (IH (axis_step s N st d) Hrun Hkfin Hkfrac) as (K & HK & HKsum & HKfrac & HKfin).
    { rewrite Hk. apply Z.mod_pos_bound, HN. }
    exists (k + K). cbn [fold_left].
    change (scaled_sum s (d :: ds)) with (scaled_delta s d + scaled_sum s ds)%Q.
    repeat apply conj.
    + rewrite HK, Hk, Zplus_mod_idemp_l. f_equal. ring.
    + rewrite inject_Z_plus. lra.
    + apply HKfrac.
    + apply HKfrac.
    + exact HKfin.
Qed.

(** An exact run from an empty accumulator whose scaled deltas sum to the
    integer [k]: the scroll position moves by [k], wrapped, and the
    accumulator is empty again. *)
Lemma axis_run_exact_integer (s : float) (N : Z) (ds : list float) (st : float * Z) (k : Z) :
  0 < N ->
  axis_run_exact s N st ds = true ->
  is_zero (fst st) = true ->
  0 <= snd st < N ->
  (scaled_sum s ds == inject_Z k)%Q ->
  snd (fold_left (axis_step s N) ds st) = wrap (snd st + k) N
  /\ is_zero (fst (fold_left (axis_step s N) ds st)) = true.
Proof.
  intros HN Hexact Hzero Hpos Hsum.
  pose proof (is_zero_to_Q _ Hzero) as Hq.
  destruct (axis_run_exact_spec s N ds st HN Hexact) as (K & HK & HKsum & HKfrac & HKfin).
  { destruct (fst st); try discriminate; reflexivity. }
  { rewrite Hq. lra. }
  { exact Hpos. }
  rewrite Hq, Hsum in HKsum.
  assert (k - K = 0) as Hsame.
  { apply inject_Z_small. unfold Zminus. rewrite inject_Z_plus, inject_Z_opp. lra. }
  assert (K = k) as -> by lia.
  split.
  - rewrite HK. symmetry. apply wrap_mod, HN.
  - apply to_Q_zero; [exact HKfin | lra].
Qed.

(** [ApplyTrackballInput] steps each axis on its own. *)
Lemma ApplyTrackballInput_axes (AxisX AxisY : float) (w : World) :
  let a := self w in
  let a' := self (ApplyTrackballInput AxisX AxisY w) in
  (AccumulatorX a', ScrollX a')
  = axis_step (ScrollSensitivity a) (GlobalMapWidth a) (AccumulatorX a, ScrollX a) AxisX
  /\ (AccumulatorY a', ScrollY a')
     = axis_step (ScrollSensitivity a) (GlobalMapHeight a) (AccumulatorY a, ScrollY a) AxisY
  /\ ScrollSensitivity a' = ScrollSensitivity a
  /\ GlobalMapWidth a' = GlobalMapWidth a
  /\ GlobalMapHeight a' = GlobalMapHeight a.
Proof. cbv zeta. repeat apply conj; reflexivity. Qed.

Lemma ApplyTrackballInputs_axes (inputs : list (float * float)) (w : World) :
  let a := self w in
  let a' := self (ApplyTrackballInputs inputs w) in
  (AccumulatorX a', ScrollX a')
  = fold_left (axis_step (ScrollSensitivity a) (GlobalMapWidth a))
              (map fst inputs) (AccumulatorX a, ScrollX a)
  /\ (AccumulatorY a', ScrollY a')
     = fold_left (axis_step (ScrollSensitivity a) (GlobalMapHeight a))
                 (map snd inputs) (AccumulatorY a, ScrollY a).
Proof.
  cbv zeta. revert w. induction inputs as [|[dx dy] inputs IH]; intros w.
  - split; reflexivity.
  - unfold ApplyTrackballInputs. cbn [fold_left map fst snd].
    destruct (ApplyTrackballInput_axes dx dy w) as (HX & HY & Hs & HW & HH).
    cbv zeta in HX, HY, Hs, HW, HH.
    destruct (IH (ApplyTrackballInput dx dy w)) as [IHX IHY].
    unfold ApplyTrackballInputs in IHX, IHY.
    rewrite Hs, HW, HX in IHX. rewrite Hs, HH, HY in IHY.
    split; assumption.
Qed.

(** C4, as stated, fails.  From empty accumulators and the default
    sensitivity 0.5, the single input 1.0 -- a sequence of deltas that sums
    to exactly 1.0 -- produces no scroll step and leaves -0.5 in the
    accumulator.  And from the accumulator 0.5 (left by the input -1.0) the
    inputs -1.5 and 1.5, which sum to 0, move the scroll position from 0
    to 1. *)
Lemma unit_delta_gives_no_step :
  let w := world_of (actor_on_map 12 12) (fun _ => 0) in
  let w' := ApplyTrackballInputs [(F32.one, F32.zero)] w in
  let v := ApplyTrackballInput (F32.make (-1) 0) F32.zero w in
  let v' := ApplyTrackballInputs [(F32.make (-3) (-1), F32.zero);
                                  (F32.make 3 (-1), F32.zero)] v in
  (AccumulatorX (self w) = F32.zero /\ ScrollX (self w) = 0
   /\ ScrollSensitivity (self w) = F32.make 1 (-1))
  /\ (ScrollX (self w') = 0 /\ AccumulatorX (self w') = F32.make (-1) (-1))
  /\ (F32.add (F32.make (-3) (-1)) (F32.make 3 (-1)) = F32.zero
      /\ AccumulatorX (self v) = F32.make 1 (-1)
      /\ ScrollX (self v) = 0 /\ ScrollX (self v') = 1).
Proof. cbv zeta. repeat apply conj; vm_compute; reflexivity. Qed.

(** C4, amended.  The deltas are scaled by [-ScrollSensitivity] before they
    are accumulated.  Take a sequence of calls that starts from empty
    accumulators, with the scroll position inside the map, and in which no
    float operation rounds and no integer overflows.  If the scaled deltas
    [-dx * ScrollSensitivity] sum to exactly the integer [kx], then
    [ScrollX] has moved by exactly [kx] steps, wrapped into the map, and
    [AccumulatorX] is 0 again: a sum of 1 gives exactly one step, a sum of
    0 leaves the position where it was.  The same holds for the other
    axis. *)
Theorem ApplyTrackballInputs_whole_steps
    (inputs : list (float * float)) (w : World) (kx ky : Z) :
  let a := self w in
  let a' := self (ApplyTrackballInputs inputs w) in
  let s := ScrollSensitivity a in
  map_ok a ->
  0 <= ScrollX a < GlobalMapWidth a ->
  0 <= ScrollY a < GlobalMapHeight a ->
  is_zero (AccumulatorX a) = true ->
  is_zero (AccumulatorY a) = true ->
  (axis_run_exact s (GlobalMapWidth a) (AccumulatorX a, ScrollX a) (map fst inputs) = true ->
   (scaled_sum s (map fst inputs) == inject_Z kx)%Q ->
   ScrollX a' = wrap (ScrollX a + kx) (GlobalMapWidth a)
   /\ is_zero (AccumulatorX a') = true
   /\ (kx = 0 -> ScrollX a' = ScrollX a))
  /\ (axis_run_exact s (GlobalMapHeight a) (AccumulatorY a, ScrollY a) (map snd inputs) = true ->
      (scaled_sum s (map snd inputs) == inject_Z ky)%Q ->
      ScrollY a' = wrap (ScrollY a + ky) (GlobalMapHeight a)
      /\ is_zero (AccumulatorY a') = true
      /\ (ky = 0 -> ScrollY a' = ScrollY a)).
Proof.
  cbv zeta. intros (HW & HH & _) HX HY HaccX HaccY.
  destruct (ApplyTrackballInputs_axes inputs w) as [Hx Hy]. cbv zeta in Hx, Hy.
  split.
  - intros Hexact Hsum.
    destruct (axis_run_exact_integer _ _ _ _ kx HW Hexact HaccX HX Hsum) as [Hpos Hacc].
    rewrite <- Hx in Hpos, Hacc. cbn [fst snd] in Hpos, Hacc.
    repeat apply conj; [exact Hpos | exact Hacc |].
    intros ->. rewrite Hpos, Z.add_0_r. apply wrap_small, HX.
  - intros Hexact Hsum.
    destruct (axis_run_exact_integer _ _ _ _ ky HH Hexact HaccY HY Hsum) as [Hpos Hacc].
    rewrite <- Hy in Hpos, Hacc. cbn [fst snd] in Hpos, Hacc.
    repeat apply conj; [exact Hpos | exact Hacc |].
    intros ->. rewrite Hpos, Z.add_0_r. apply wrap_small, HY.
Qed.

Lemma ApplyTrackballInputs_whole_steps_witness :
  let w := world_of (actor_on_map 12 12) (fun _ => 0) in
  let quarter := (F32.make (-1) (-1), F32.zero) in
  let w' := ApplyTrackballInputs [quarter; quarter; quarter; quarter] w in
  (ScrollX (self w') = 1 /\ is_zero (AccumulatorX (self w')) = true)
  /\ ScrollY (self w') = ScrollY (self w).
Proof.
  intros w quarter w'.
  assert (map_ok (self w)) as Hmap by (vm_compute; intuition discriminate).
  assert (0 <= ScrollX (self w) < GlobalMapWidth (self w)) as HX0
    by (vm_compute; intuition discriminate).
  assert (0 <= ScrollY (self w) < GlobalMapHeight (self w)) as HY0
    by (vm_compute; intuition discriminate).
  pose proof (ApplyTrackballInputs_whole_steps
                [quarter; quarter; quarter; quarter] w 1 0
                Hmap HX0 HY0 eq_refl eq_refl) as [HX HY].
  specialize (HX ltac:(vm_compute; reflexivity) ltac:(vm_compute; reflexivity)).
  specialize (HY ltac:(vm_compute; reflexivity) ltac:(vm_compute; reflexivity)).
  split.
  - split; apply HX.
  - apply HY. reflexivity.
Defined.

(* ===================================================================== *)
(** * Grid generation *)
(* ===================================================================== *)

Lemma for_range_1_spec (lo hi x : Z) : In x (for_range lo hi 1) <-> lo <= x < hi.
Proof.
  split; [|apply in_for_range_1].
  unfold for_range. intros Hx. apply in_map_iff in Hx as (k & <- & Hk).
  apply in_seq in Hk. rewrite Z.div_1_r in Hk. lia.
Qed.

(** The counters of [for (x = 0; x < 50 * n; x += 50)]. *)
Lemma for_range_50_spec (n x : Z) :
  0 <= n -> (In x (for_range 0 (50 * n) 50) <-> exists k, x = 50 * k /\ 0 <= k < n).
Proof.
  intros Hn. unfold for_range.
  replace ((50 * n - 0 + 50 - 1) / 50) with n
    by (apply Z.div_unique with (r := 49); lia).
  split.
  - intros Hx. apply in_map_iff in Hx as (k & <- & Hk). apply in_seq in Hk.
    exists (Z.of_nat k). lia.
  - intros (k & -> & Hk). apply in_map_iff. exists (Z.to_nat k).
    split; [lia|]. apply in_seq. lia.
Qed.

Lemma for_range_50_length (n : Z) :
  0 <= n -> Z.of_nat (length (for_range 0 (50 * n) 50)) = n.
Proof.
  intros Hn. unfold for_range. rewrite length_map, length_seq.
  replace ((50 * n - 0 + 50 - 1) / 50) with n
    by (apply Z.div_unique with (r := 49); lia).
  lia.
Qed.

Lemma NoDup_map_injective {A B : Type} (f : A -> B) (l : list A) :
  (forall x y, f x = f y -> x = y) -> List.NoDup l -> List.NoDup (map f l).
Proof.
  intros Hinj Hl. induction Hl as [|x l Hx Hl IH]; cbn [map]; constructor.
  - intros Hin. apply in_map_iff in Hin as (y & Hxy & Hy).
    apply Hinj in Hxy. subst y. contradiction.
  - exact IH.
Qed.

Lemma for_range_NoDup (lo hi step : Z) :
  0 < step -> List.NoDup (for_range lo hi step).
Proof.
  intros Hstep. unfold for_range.
  apply NoDup_map_injective; [|apply seq_NoDup].
  intros j k Hjk. nia.
Qed.

(** ** Step 1: the values *)

Lemma GenerateGrid_fill_eq (w : World) (i : Z) :
  GenerateGrid_fill w i
  = mkWorld (set_GlobalGridNumbers
               (Put (GlobalGridNumbers (self w)) i (1 + RandDraws w (RandCursor w) mod 9))
               (self w))
            (TimeSeconds w) (RandDraws w) (S (RandCursor w)) (Log w).
Proof. reflexivity. Qed.

Lemma GenerateGrid_fill_loop (l : list Z) (w : World) :
  let w' := fold_left GenerateGrid_fill l w in
  length (GlobalGridNumbers (self w')) = length (GlobalGridNumbers (self w))
  /\ ScaryActive (self w') = ScaryActive (self w)
  /\ GlobalMapWidth (self w') = GlobalMapWidth (self w)
  /\ GlobalMapHeight (self w') = GlobalMapHeight (self w)
  /\ Log w' = Log w
  /\ forall i, IsValidIndex (GlobalGridNumbers (self w)) i = true ->
       In i l \/ tile_value (Get 0 (GlobalGridNumbers (self w)) i) ->
       tile_value (Get 0 (GlobalGridNumbers (self w')) i).
Proof.
  cbv zeta. revert w. induction l as [|x l IH]; intros w.
  - cbn [fold_left]. repeat apply conj; try reflexivity.
    intros i _ [[] | Hi]. exact Hi.
  - cbn [fold_left].
    destruct (IH (GenerateGrid_fill w x)) as (Hlen & Hscary & HW & HH & Hlog & Hval).
    rewrite GenerateGrid_fill_eq in Hlen, Hscary, HW, HH, Hlog, Hval.
    cbn [self set_GlobalGridNumbers GlobalGridNumbers ScaryActive GlobalMapWidth
         GlobalMapHeight Log] in Hlen, Hscary, HW, HH, Hlog, Hval.
    rewrite length_Put in Hlen.
    repeat apply conj; try assumption.
    intros i Hi Hcase. apply Hval.
    + rewrite IsValidIndex_Put. exact Hi.
    + destruct (Z.eq_dec x i) as [-> | Hne].
      * right. rewrite Get_Put_same by exact Hi. apply RandRange_1_9.
      * destruct Hcase as [[Hxi | Hin] | Hgood]; [contradiction | left; exact Hin |].
        right. rewrite Get_Put_other by exact Hne. exact Hgood.
Qed.

(** ** Step 2: the scary flags *)

Lemma fold_left_ghost {A B : Type} (Q : list B -> A -> Prop) (f : A -> B -> A)
    (l : list B) (a : A) :
  Q [] a ->
  (forall done x rest a', l = done ++ x :: rest -> Q done a' -> Q (done ++ [x]) (f a' x)) ->
  Q l (fold_left f l a).
Proof.
  intros Hinit Hstep.
  enough (forall rest pre a', pre ++ rest = l -> Q pre a' ->
                              Q (pre ++ rest) (fold_left f rest a')) as Hgen
      by (apply (Hgen l [] a eq_refl Hinit)).
  induction rest as [|x rest IH]; intros pre a' Hl Hpre.
  - rewrite app_nil_r. exact Hpre.
  - cbn [fold_left].
    replace (pre ++ x :: rest) with ((pre ++ [x]) ++ rest)
      by (rewrite <- app_assoc; reflexivity).
    apply IH.
    + rewrite <- app_assoc. exact Hl.
    + apply (Hstep pre x rest); [symmetry; exact Hl | exact Hpre].
Qed.

Lemma list_prod_snoc {A B : Type} (l : list A) (y : A) (xs : list B) :
  list_prod (l ++ [y]) xs = list_prod l xs ++ map (pair y) xs.
Proof.
  induction l as [|z l IH]; cbn [list_prod app].
  - apply app_nil_r.
  - rewrite IH, app_assoc. reflexivity.
Qed.

Lemma count_true_insert (flags : list bool) (n : nat) :
  flags !! n = Some false ->
  count_true (<[n := true]> flags) = S (count_true flags).
Proof.
  unfold count_true. revert n. induction flags as [|b flags IH]; intros n Hn.
  - discriminate.
  - destruct n as [|n].
    + cbn in Hn. injection Hn as ->. reflexivity.
    + change (<[S n := true]> (b :: flags)) with (b :: <[n := true]> flags).
      change ((b :: flags) !! S n) with (flags !! n) in Hn.
      cbn [List.filter]. destruct b; cbn [length]; rewrite (IH n Hn); reflexivity.
Qed.

Lemma count_true_Put (flags : list bool) (i : Z) :
  IsValidIndex flags i = true -> Get false flags i = false ->
  count_true (Put flags i true) = S (count_true flags).
Proof.
  intros Hi Hclear. unfold Put. rewrite Hi. apply count_true_insert.
  unfold Get in Hclear. rewrite Hi in Hclear.
  apply IsValidIndex_true in Hi.
  destruct (flags !! Z.to_nat i) as [b|] eqn:Hlook.
  - cbn in Hclear. subst b. reflexivity.
  - apply lookup_ge_None in Hlook. lia.
Qed.

Lemma count_true_Init (n : Z) : count_true (Init false n) = 0%nat.
Proof.
  unfold count_true, Init. induction (Z.to_nat n) as [|k IH]; [reflexivity | exact IH].
Qed.

(** A cell of the grid determines its index. *)
Lemma cell_index_injective (W X Y X' Y' : Z) :
  0 <= X < W -> 0 <= X' < W -> Y * W + X = Y' * W + X' -> X = X' /\ Y = Y'.
Proof.
  intros HX HX' Heq.
  assert (Y = Y') as -> by nia.
  split; [lia | reflexivity].
Qed.

Lemma sector_of_cell (s d : Z) : 0 <= d < 50 -> 50 * ((50 * s + d) / 50) = 50 * s.
Proof.
  intros Hd. f_equal. symmetry. apply Z.div_unique with (r := d); lia.
Qed.

(** Flagging one cell of a sector that has not been processed yet. *)
Lemma flag_one_sector (W H : Z) (done : list (Z * Z)) (flags : list bool)
    (p : Z * Z) (ox oy : Z) :
  0 < W -> 0 < H ->
  sectors_flagged W H done flags ->
  sector_origin W H p -> ~ In p done ->
  5 <= ox <= 45 -> 5 <= oy <= 45 ->
  sectors_flagged W H (done ++ [p])
                  (Put flags ((fst p + oy) * W + (snd p + ox)) true).
Proof.
  intros HW HH (Hlen & Horigins & Hclear & Hdone & Hcount) Horigin Hnew Hox Hoy.
  destruct Horigin as (sy & sx & -> & Hsx0 & Hsx1 & Hsy0 & Hsy1).
  cbn [fst snd].
  set (idx0 := (50 * sy + oy) * W + (50 * sx + ox)).
  assert (IsValidIndex flags idx0 = true) as Hvalid.
  { apply IsValidIndex_true. rewrite Hlen. unfold idx0. nia. }
  assert (forall X Y, 0 <= X < W -> Y * W + X = idx0 -> X = 50 * sx + ox /\ Y = 50 * sy + oy)
    as Hsame.
  { intros X Y HX Heq. apply (cell_index_injective W); [exact HX | lia | exact Heq]. }
  assert (Get false flags idx0 = false) as Hwas.
  { apply Hclear; [lia | lia |].
    rewrite !sector_of_cell by lia. exact Hnew. }
  repeat apply conj.
  - rewrite length_Put. exact Hlen.
  - apply Forall_app. split; [exact Horigins|].
    constructor; [|constructor]. exists sy, sx. repeat apply conj; try reflexivity; lia.
  - intros X Y HX HY Hother.
    rewrite Get_Put_other.
    + apply Hclear; try assumption.
      intros Hin. apply Hother, in_or_app. left. exact Hin.
    + intros Heq. symmetry in Heq. apply Hsame in Heq as [-> ->]; [|exact HX].
      apply Hother, in_or_app. right. left.
      rewrite !sector_of_cell by lia. reflexivity.
  - apply Forall_app. split.
    + rewrite List.Forall_forall in Hdone, Horigins |- *.
      intros q Hq. destruct (Hdone q Hq) as (qx & qy & Hqx & Hqy & Hflag).
      destruct (Horigins q Hq) as (ty & tx & -> & Htx0 & Htx1 & Hty0 & Hty1).
      exists qx, qy. repeat apply conj; try lia.
      intros dx dy Hdx Hdy. cbn [fst snd] in Hflag |- *.
      rewrite Get_Put_other; [apply Hflag; assumption|].
      intros Heq. symmetry in Heq. apply Hsame in Heq as [HXeq HYeq]; [|lia].
      assert (tx = sx) as -> by lia. assert (ty = sy) as -> by lia.
      contradiction.
    + constructor; [|constructor].
      exists ox, oy. repeat apply conj; try lia.
      intros dx dy Hdx Hdy. cbn [fst snd]. split.
      * intros Hset.
        destruct (Z.eq_dec ((50 * sy + dy) * W + (50 * sx + dx)) idx0) as [Heq | Hne].
        -- apply Hsame in Heq as [HXeq HYeq]; lia.
        -- rewrite Get_Put_other in Hset by (intros Heq; apply Hne; symmetry; exact Heq).
           rewrite Hclear in Hset; [discriminate | lia | lia |].
           rewrite !sector_of_cell by lia. exact Hnew.
      * intros [-> ->]. apply Get_Put_same, Hvalid.
  - rewrite count_true_Put by assumption.
    rewrite Hcount, length_app. cbn [length]. lia.
Qed.

Lemma sectors_flagged_none (W H : Z) :
  0 <= W * H -> sectors_flagged W H [] (Init false (W * H)).
Proof.
  intros HT. repeat apply conj.
  - rewrite length_Init. lia.
  - constructor.
  - intros X Y HX HY _.
    destruct (IsValidIndex (Init false (W * H)) (Y * W + X)) eqn:Hvalid.
    + apply Get_Init, Hvalid.
    + apply Get_invalid, Hvalid.
  - constructor.
  - apply count_true_Init.
Qed.

(** What one sector iteration does to the world. *)
Lemma GenerateGrid_sector_at_spec (w : World) (p : Z * Z) :
  let w' := GenerateGrid_sector_at w p in
  let ox := 5 + RandDraws w (RandCursor w) mod 41 in
  let oy := 5 + RandDraws w (S (RandCursor w)) mod 41 in
  ScaryActive (self w')
  = Put (ScaryActive (self w)) ((fst p + oy) * GlobalMapWidth (self w) + (snd p + ox)) true
  /\ (5 <= ox <= 45 /\ 5 <= oy <= 45)
  /\ GlobalGridNumbers (self w') = GlobalGridNumbers (self w)
  /\ GlobalMapWidth (self w') = GlobalMapWidth (self w)
  /\ GlobalMapHeight (self w') = GlobalMapHeight (self w)
  /\ Log w' = Log w.
Proof.
  cbv zeta. unfold GenerateGrid_sector_at, GenerateGrid_sector.
  unfold RandRange, RandHelper.
  change (50 - 5 - 5 + 1) with 41. change (0 <? 41) with true. cbv iota.
  cbn [self RandDraws RandCursor fst snd].
  pose proof (Z.mod_pos_bound (RandDraws w (RandCursor w)) 41 ltac:(lia)).
  pose proof (Z.mod_pos_bound (RandDraws w (S (RandCursor w))) 41 ltac:(lia)).
  match goal with
  | |- context [if IsValidIndex ?arr ?i then _ else _] =>
      destruct (IsValidIndex arr i) eqn:Hvalid
  end.
  - cbn. unfold Put. rewrite Hvalid. repeat apply conj; try reflexivity; lia.
  - cbn. unfold Put. rewrite Hvalid. repeat apply conj; try reflexivity; lia.
Qed.

(** The sector loops leave everything but the flags, and their number. *)
Lemma GenerateGrid_sector_at_frame (w : World) (p : Z * Z) :
  let w' := GenerateGrid_sector_at w p in
  length (ScaryActive (self w')) = length (ScaryActive (self w))
  /\ GlobalGridNumbers (self w') = GlobalGridNumbers (self w)
  /\ GlobalMapWidth (self w') = GlobalMapWidth (self w)
  /\ GlobalMapHeight (self w') = GlobalMapHeight (self w)
  /\ Log w' = Log w.
Proof.
  cbv zeta.
  destruct (GenerateGrid_sector_at_spec w p) as (Hflags & _ & Hgrid & HW & HH & Hlog).
  rewrite Hflags, length_Put. repeat apply conj; try assumption; reflexivity.
Qed.

(** The nested sector loops of [GenerateGrid], as one loop over the
    sector origins. *)
Lemma sector_loops_flatten (w : World) :
  fold_left
    (fun w y =>
       fold_left (GenerateGrid_sector 50 y)
                 (for_range 0 (GlobalMapWidth (self w)) 50) w)
    (for_range 0 (GlobalMapHeight (self w)) 50) w
  = fold_left GenerateGrid_sector_at
              (list_prod (for_range 0 (GlobalMapHeight (self w)) 50)
                         (for_range 0 (GlobalMapWidth (self w)) 50)) w.
Proof.
  generalize (for_range 0 (GlobalMapHeight (self w)) 50) as ys.
  set (W := GlobalMapWidth (self w)).
  assert (GlobalMapWidth (self w) = W) as HW by reflexivity. clearbody W.
  intros ys. revert w HW. induction ys as [|y ys IH]; intros w HW; [reflexivity|].
  cbn [fold_left list_prod]. rewrite fold_left_app, HW.
  assert (forall xs u, fold_left GenerateGrid_sector_at (map (pair y) xs) u
                       = fold_left (GenerateGrid_sector 50 y) xs u) as Hrow.
  { induction xs as [|x xs IHxs]; intros u; [reflexivity|].
    cbn [map fold_left]. apply IHxs. }
  rewrite Hrow. apply IH.
  apply (fold_left_preserves (fun u => GlobalMapWidth (self u) = W)); [|exact HW].
  intros u x Hu.
  destruct (GenerateGrid_sector_at_frame u (y, x)) as (_ & _ & HW' & _).
  unfold GenerateGrid_sector_at in HW'. cbn [fst snd] in HW'. rewrite HW'. exact Hu.
Qed.

Lemma sector_loop_frame (l : list (Z * Z)) (w : World) :
  let w' := fold_left GenerateGrid_sector_at l w in
  length (ScaryActive (self w')) = length (ScaryActive (self w))
  /\ GlobalGridNumbers (self w') = GlobalGridNumbers (self w)
  /\ GlobalMapWidth (self w') = GlobalMapWidth (self w)
  /\ GlobalMapHeight (self w') = GlobalMapHeight (self w)
  /\ Log w' = Log w.
Proof.
  cbv zeta.
  apply (fold_left_preserves
           (fun u => length (ScaryActive (self u)) = length (ScaryActive (self w))
                     /\ GlobalGridNumbers (self u) = GlobalGridNumbers (self w)
                     /\ GlobalMapWidth (self u) = GlobalMapWidth (self w)
                     /\ GlobalMapHeight (self u) = GlobalMapHeight (self w)
                     /\ Log u = Log w)).
  - intros u p (Hlen & Hgrid & HW & HH & Hlog).
    destruct (GenerateGrid_sector_at_frame u p) as (Hlen' & Hgrid' & HW' & HH' & Hlog').
    rewrite Hlen', Hgrid', HW', HH', Hlog'. repeat apply conj; assumption.
  - repeat apply conj; reflexivity.
Qed.

(** The sector loop over distinct sector origins flags one cell in each. *)
Lemma sector_loop_flags (W H : Z) (l : list (Z * Z)) (w : World) :
  0 < W -> 0 < H ->
  GlobalMapWidth (self w) = W ->
  List.NoDup l -> Forall (sector_origin W H) l ->
  sectors_flagged W H [] (ScaryActive (self w)) ->
  sectors_flagged W H l (ScaryActive (self (fold_left GenerateGrid_sector_at l w))).
Proof.
  intros HW HH Hwidth Hdistinct Horigins Hinit.
  enough (GlobalMapWidth (self (fold_left GenerateGrid_sector_at l w)) = W
          /\ sectors_flagged W H l
               (ScaryActive (self (fold_left GenerateGrid_sector_at l w)))) as [_ Hgoal]
      by exact Hgoal.
  apply (fold_left_ghost
           (fun done u => GlobalMapWidth (self u) = W
                          /\ sectors_flagged W H done (ScaryActive (self u)))).
  - split; assumption.
  - intros done p rest u Hsplit [Hu Hflagged].
    destruct (GenerateGrid_sector_at_spec u p) as (Hflags & [Hox Hoy] & _ & HW' & _).
    cbv zeta in Hflags, Hox, Hoy. rewrite HW', Hflags, Hu. split; [reflexivity|].
    apply flag_one_sector; try assumption.
    + rewrite List.Forall_forall in Horigins. apply Horigins.
      rewrite Hsplit. apply in_or_app. right. left. reflexivity.
    + rewrite Hsplit in Hdistinct. apply NoDup_remove_2 in Hdistinct.
      intros Hin. apply Hdistinct, in_or_app. left. exact Hin.
Qed.

Lemma NoDup_list_prod {A B : Type} (l : list A) (l' : list B) :
  List.NoDup l -> List.NoDup l' -> List.NoDup (list_prod l l').
Proof.
  intros Hl Hl'. induction Hl as [|x l Hx Hl IH]; cbn [list_prod]; [constructor|].
  apply List.NoDup_app.
  - apply NoDup_map_injective; [|exact Hl']. intros y z Hyz. congruence.
  - exact IH.
  - intros [a b] Hin Hin'.
    apply in_map_iff in Hin as (y & Hy & _). injection Hy as <- _.
    apply in_prod_iff in Hin' as [Hin' _]. contradiction.
Qed.

(** C6, as stated, fails.  On a 10 x 10 map (one sector that the map does
    not fill) whose sector draws give the offset 45, the chosen index
    45 * 10 + 45 lies outside the grid and no scary flag is set, where
    [ceil(10/50) * ceil(10/50)] is 1. *)
Lemma small_map_gets_no_scary_tile :
  let w := GenerateGrid (world_of (actor_on_map 10 10) (fun _ => 40)) in
  generation_ok (actor_on_map 10 10)
  /\ Num (GlobalGridNumbers (self w)) = 10 * 10
  /\ count_true (ScaryActive (self w)) = 0%nat
  /\ ((10 + 49) / 50) * ((10 + 49) / 50) = 1.
Proof.
  cbv zeta. repeat apply conj; try (vm_compute; reflexivity);
    vm_compute; intuition discriminate.
Qed.

(** C6, amended.  After [GenerateGrid] on a map of positive sizes (all its
    index arithmetic within [int32]) the grid and the flag array have
    [W * H] cells and every cell value lies in [1..9].  When [W] and [H]
    are multiples of the sector size, [W = 50 * cols] and [H = 50 * rows],
    exactly [cols * rows] scary flags are set, and each 50 x 50 sector
    holds exactly one, at an offset of 5..45 in both directions. *)
Theorem GenerateGrid_invariant (w : World) (cols rows : Z) :
  let a := self w in
  let a' := self (GenerateGrid w) in
  let W := GlobalMapWidth a in
  let H := GlobalMapHeight a in
  generation_ok a ->
  (Num (GlobalGridNumbers a') = W * H
   /\ Num (ScaryActive a') = W * H
   /\ (forall i, 0 <= i < W * H -> 1 <= Get 0 (GlobalGridNumbers a') i <= 9)
   /\ Log (GenerateGrid w) = Log w ++ [GridScrolled])
  /\ (W = 50 * cols -> H = 50 * rows ->
      Z.of_nat (count_true (ScaryActive a')) = cols * rows
      /\ forall sx sy, 0 <= sx < cols -> 0 <= sy < rows ->
           exists ox oy,
             5 <= ox <= 45 /\ 5 <= oy <= 45
             /\ forall dx dy, 0 <= dx < 50 -> 0 <= dy < 50 ->
                  (Get false (ScaryActive a') ((50 * sy + dy) * W + (50 * sx + dx)) = true
                   <-> dx = ox /\ dy = oy)).
Proof.
  cbv zeta. intros (HW & HH & Hfit).
  set (W := GlobalMapWidth (self w)) in *. set (H := GlobalMapHeight (self w)) in *.
  assert (0 < W * H) as HT by nia.
  unfold GenerateGrid. cbv zeta.
  set (w2 := with_self (set_ScaryActive (Init false _)) (with_self (set_GlobalGridNumbers _) w)).
  change (GlobalMapWidth (self w) * GlobalMapHeight (self w)) with (W * H) in *.
  destruct (GenerateGrid_fill_loop (for_range 0 (W * H) 1) w2)
    as (Hlen3 & Hscary3 & HW3 & HH3 & Hlog3 & Hval3).
  set (w3 := fold_left GenerateGrid_fill (for_range 0 (W * H) 1) w2) in *.
  rewrite (sector_loops_flatten w3).
  destruct (sector_loop_frame
              (list_prod (for_range 0 (GlobalMapHeight (self w3)) 50)
                         (for_range 0 (GlobalMapWidth (self w3)) 50)) w3)
    as (Hlen4 & Hgrid4 & HW4 & HH4 & Hlog4).
  change (GlobalMapWidth (self w2)) with W in HW3.
  change (GlobalMapHeight (self w2)) with H in HH3.
  change (GlobalGridNumbers (self w2)) with (Init 0 (W * H)) in Hlen3, Hval3.
  change (ScaryActive (self w2)) with (Init false (W * H)) in Hscary3.
  change (Log w2) with (Log w) in Hlog3.
  rewrite HW3, HH3 in *.
  set (w4 := fold_left GenerateGrid_sector_at
                       (list_prod (for_range 0 H 50) (for_range 0 W 50)) w3) in *.
  cbn [OnGridScrolled emit self Log].
  split; [repeat apply conj|].
  - unfold Num. rewrite Hgrid4, Hlen3, length_Init. lia.
  - unfold Num. rewrite Hlen4, Hscary3, length_Init. lia.
  - intros i Hi. rewrite Hgrid4. apply Hval3.
    + apply IsValidIndex_true. rewrite length_Init. lia.
    + left. apply for_range_1_spec. lia.
  - rewrite Hlog4, Hlog3. reflexivity.
  - intros Hcols Hrows.
    assert (0 < cols) as Hcols0 by lia. assert (0 < rows) as Hrows0 by lia.
    assert (sectors_flagged W H (list_prod (for_range 0 H 50) (for_range 0 W 50))
                            (ScaryActive (self w4))) as Hflagged.
    { apply sector_loop_flags; try assumption.
      - apply NoDup_list_prod; apply for_range_NoDup; lia.
      - apply List.Forall_forall. intros [y x] Hin.
        apply in_prod_iff in Hin as [Hy Hx].
        rewrite Hrows in Hy. rewrite Hcols in Hx.
        apply for_range_50_spec in Hy as (sy & -> & Hsy); [|lia].
        apply for_range_50_spec in Hx as (sx & -> & Hsx); [|lia].
        exists sy, sx. repeat apply conj; try reflexivity; lia.
      - rewrite Hscary3. apply sectors_flagged_none. lia. }
    destruct Hflagged as (_ & _ & _ & Hone & Hcount).
    split.
    + rewrite Hcount, length_prod, Nat2Z.inj_mul.
      rewrite Hrows, Hcols, !for_range_50_length by lia. ring.
    + intros sx sy Hsx Hsy.
      rewrite List.Forall_forall in Hone.
      destruct (Hone (50 * sy, 50 * sx)) as (ox & oy & Hox & Hoy & Hflag).
      { apply in_prod.
        - rewrite Hrows. apply for_range_50_spec; [lia|]. exists sy. lia.
        - rewrite Hcols. apply for_range_50_spec; [lia|]. exists sx. lia. }
      exists ox, oy. repeat apply conj; try lia. exact Hflag.
Qed.

Lemma GenerateGrid_invariant_witness :
  let w := GenerateGrid (world_of (actor_on_map 100 50) (fun n => Z.of_nat n)) in
  Num (GlobalGridNumbers (self w)) = 100 * 50
  /\ Z.of_nat (count_true (ScaryActive (self w))) = 2 * 1.
Proof.
  assert (generation_ok (self (world_of (actor_on_map 100 50) (fun n => Z.of_nat n))))
    as Hok by (vm_compute; intuition discriminate).
  pose proof (GenerateGrid_invariant
                (world_of (actor_on_map 100 50) (fun n => Z.of_nat n)) 2 1 Hok)
    as [(Hsize & _) Hsectors].
  split; [exact Hsize|].
  apply Hsectors; reflexivity.
Defined.

(* ===================================================================== *)
(** * Further properties: chunks, files and the hook *)
(* ===================================================================== *)

Lemma chunk_applied_log (BarIndex : Z) (w : World) :
  Log (chunk_applied BarIndex w)
  = Log w ++ [ChunkConsumed;
              ProgressUpdated BarIndex
                (F32.Clamp (F32.add (Get F32.zero (ProgressBars (self w)) BarIndex)
                                    (F32.mul (PendingChunkValue (self w)) F32.c1_5))
                           F32.zero F32.one)].
Proof. unfold chunk_applied. cbn. rewrite <- ?app_assoc. reflexivity. Qed.

(** X1.  A chunk that brings the master progress to 1.0 while files remain
    for the day: [ApplChunkToBar] sends chunk-consumed, progress-updated,
    file-completed, the four progress resets and the file-selection
    request, in this order and nothing else -- the all-bars-full hook is
    not called --; the bars are back at 0, the file is counted, the day
    stays active and no chunk is pending. *)
Theorem ApplChunkToBar_file_done_more_to_go (BarIndex : Z) (w : World) :
  bDayActive (self w) = true ->
  F32.le (PendingChunkValue (self w)) F32.zero = false ->
  IsValidIndex (ProgressBars (self w)) BarIndex = true ->
  F32.ge (Get F32.zero (ProgressBars (self w)) BarIndex) F32.one = false ->
  F32.ge (GetMasterProgress (self (chunk_applied BarIndex w))) F32.one = true ->
  FilesRefinedCount (self w) + 1 < FilesPerDay (self w) ->
  FilesPerDay (self w) <= 2147483647 ->
  let w' := ApplChunkToBar BarIndex w in
  Log w'
  = Log w ++ [ChunkConsumed;
              ProgressUpdated BarIndex
                (F32.Clamp (F32.add (Get F32.zero (ProgressBars (self w)) BarIndex)
                                    (F32.mul (PendingChunkValue (self w)) F32.c1_5))
                           F32.zero F32.one);
              FileCompleted (FilesRefinedCount (self w) + 1) (FilesPerDay (self w));
              ProgressUpdated 0 F32.zero; ProgressUpdated 1 F32.zero;
              ProgressUpdated 2 F32.zero; ProgressUpdated 3 F32.zero;
              ShowFileSelection]
  /\ ProgressBars (self w') = [F32.zero; F32.zero; F32.zero; F32.zero]
  /\ FilesRefinedCount (self w') = FilesRefinedCount (self w) + 1
  /\ bDayActive (self w') = true
  /\ PendingChunkValue (self w') = F32.zero.
Proof.
  intros Hday Hchunk Hvalid Hroom Hmaster Hmore _. cbv zeta.
  destruct (ApplChunkToBar_completes_file BarIndex w Hday Hchunk Hvalid Hroom Hmaster Hmore)
    as [Hlog Hbars].
  rewrite chunk_applied_log, <- app_assoc in Hlog.
  repeat apply conj; [exact Hlog | exact Hbars | | |];
    rewrite ApplChunkToBar_completes_file_eq by assumption.
  - reflexivity.
  - cbn. exact Hday.
  - reflexivity.
Qed.

Lemma ApplChunkToBar_file_done_more_to_go_witness :
  ProgressBars (self (ApplChunkToBar 3 (world_three_bars_full 0)))
  = [F32.zero; F32.zero; F32.zero; F32.zero]
  /\ count_events Event_eqb_AllBarsFull (Log (ApplChunkToBar 3 (world_three_bars_full 0)))
     = 0%nat.
Proof.
  pose proof (ApplChunkToBar_file_done_more_to_go 3 (world_three_bars_full 0)
                eq_refl eq_refl eq_refl eq_refl) as H.
  specialize (H ltac:(vm_compute; reflexivity) ltac:(vm_compute; reflexivity)
                ltac:(vm_compute; intuition discriminate)).
  cbv zeta in H. destruct H as (Hlog & Hbars & _).
  split; [exact Hbars|]. rewrite Hlog. reflexivity.
Defined.

(** X2.  A chunk that completes the last file of the day with all four bars
    full: [ApplChunkToBar] sends chunk-consumed, progress-updated,
    file-completed, day-complete with the duration [now - DayStartTime],
    and then calls the all-bars-full hook, once; the day is no longer
    active and the bars keep their values. *)
Theorem ApplChunkToBar_last_file_done (BarIndex : Z) (w : World) :
  bDayActive (self w) = true ->
  F32.le (PendingChunkValue (self w)) F32.zero = false ->
  IsValidIndex (ProgressBars (self w)) BarIndex = true ->
  F32.ge (Get F32.zero (ProgressBars (self w)) BarIndex) F32.one = false ->
  F32.ge (GetMasterProgress (self (chunk_applied BarIndex w))) F32.one = true ->
  AllBarsFull (self (chunk_applied BarIndex w)) = true ->
  FilesPerDay (self w) <= FilesRefinedCount (self w) + 1 ->
  FilesRefinedCount (self w) < 2147483647 ->
  let w' := ApplChunkToBar BarIndex w in
  Log w'
  = Log w ++ [ChunkConsumed;
              ProgressUpdated BarIndex
                (F32.Clamp (F32.add (Get F32.zero (ProgressBars (self w)) BarIndex)
                                    (F32.mul (PendingChunkValue (self w)) F32.c1_5))
                           F32.zero F32.one);
              FileCompleted (FilesRefinedCount (self w) + 1) (FilesPerDay (self w));
              DayComplete (F32.sub (TimeSeconds w) (DayStartTime (self w)));
              AllBarsFullHook]
  /\ bDayActive (self w') = false
  /\ ProgressBars (self w') = ProgressBars (self (chunk_applied BarIndex w)).
Proof.
  intros Hday Hchunk Hvalid Hroom Hmaster Hfull Hlast _. cbv zeta.
  destruct (ApplChunkToBar_completes_day BarIndex w Hday Hchunk Hvalid Hroom Hmaster
              Hfull Hlast) as (Hlog & Hoff & Hbars).
  rewrite chunk_applied_log, <- app_assoc in Hlog.
  repeat apply conj; assumption.
Qed.

Lemma ApplChunkToBar_last_file_done_witness :
  bDayActive (self (ApplChunkToBar 3 (world_three_bars_full 1))) = false
  /\ count_events Event_eqb_AllBarsFull (Log (ApplChunkToBar 3 (world_three_bars_full 1)))
     = 1%nat.
Proof.
  pose proof (ApplChunkToBar_last_file_done 3 (world_three_bars_full 1)
                eq_refl eq_refl eq_refl eq_refl) as H.
  specialize (H ltac:(vm_compute; reflexivity) ltac:(vm_compute; reflexivity)
                ltac:(vm_compute; intuition discriminate)
                ltac:(vm_compute; intuition discriminate)).
  cbv zeta in H. destruct H as (Hlog & Hoff & _).
  split; [exact Hoff|]. rewrite Hlog. reflexivity.
Defined.

(* ===================================================================== *)
(** * Further properties: values between 0 and 1 *)
(* ===================================================================== *)

Lemma lt_le (x y : float) : F32.lt x y = true -> F32.le x y = true.
Proof.
  unfold F32.lt, F32.le, SFltb, SFleb.
  destruct (SFcompare x y) as [[]|]; try discriminate; reflexivity.
Qed.

(** [FMath::Clamp(x, 0, 1)] lies in [0, 1] whatever [x] is, a NaN included. *)
Lemma Clamp_in_unit (x : float) : in_unit (F32.Clamp x F32.zero F32.one) = true.
Proof.
  unfold F32.Clamp.
  destruct (F32.lt x F32.zero) eqn:Hlow; [reflexivity|].
  destruct (F32.lt x F32.one) eqn:Hhigh; [|reflexivity].
  unfold in_unit. rewrite (lt_le _ _ Hhigh), andb_true_r.
  destruct x as [s | s | | s m e]; try reflexivity; try discriminate;
    destruct s; try reflexivity; discriminate.
Qed.

(** X3.  The three normalised read-outs are floats of [0, 1] in every
    state, whatever the bars, timers and accumulators hold (NaN and
    infinities included): the master progress, the cooldown ratio of any
    bar index, and the sensor proximity. *)
Theorem read_outs_in_unit_interval (a : ATerminalActor) (BarIndex : Z) :
  scan_ok a ->
  in_unit (GetMasterProgress a) = true
  /\ in_unit (GetBarCooldownRatio a BarIndex) = true
  /\ in_unit (GetSensorProximityValue a) = true.
Proof.
  intros _. repeat apply conj.
  - unfold GetMasterProgress. apply Clamp_in_unit.
  - unfold GetBarCooldownRatio.
    destruct (_ || _); [reflexivity | apply Clamp_in_unit].
  - unfold GetSensorProximityValue. cbv zeta.
    destruct (fold_left _ _ _) as [m found].
    destruct (negb found); [reflexivity | apply Clamp_in_unit].
Qed.

Lemma read_outs_in_unit_interval_witness :
  in_unit (GetSensorProximityValue actor_centered_on_scary) = true
  /\ in_unit (GetMasterProgress (self (world_three_bars_full 0))) = true.
Proof.
  split.
  - apply (read_outs_in_unit_interval actor_centered_on_scary 0).
    vm_compute. intuition discriminate.
  - apply (read_outs_in_unit_interval (self (world_three_bars_full 0)) 0).
    vm_compute. intuition discriminate.
Defined.

Lemma Forall_Put {A : Type} (P : A -> Prop) (l : list A) (i : Z) (v : A) :
  Forall P l -> P v -> Forall P (Put l i v).
Proof.
  intros Hl Hv. unfold Put. destruct (IsValidIndex l i); [|exact Hl].
  apply Forall_insert; assumption.
Qed.

Lemma OnFileWorkComplete_bars (w : World) :
  ProgressBars (self (OnFileWorkComplete w)) = [F32.zero; F32.zero; F32.zero; F32.zero]
  \/ ProgressBars (self (OnFileWorkComplete w)) = ProgressBars (self w).
Proof.
  unfold OnFileWorkComplete. cbn.
  destruct (_ <=? _); [right | left]; reflexivity.
Qed.

(** X4.  [ApplChunkToBar] keeps the bars in [0, 1]: if every bar is a
    float of [0, 1] before the call, every bar is one after it, whichever
    path the call takes and whatever the pending chunk is; and it never
    changes the number of bars. *)
Theorem ApplChunkToBar_keeps_bars_in_unit (BarIndex : Z) (w : World) :
  Forall (fun Bar => in_unit Bar = true) (ProgressBars (self w)) ->
  FilesRefinedCount (self w) < 2147483647 ->
  Forall (fun Bar => in_unit Bar = true) (ProgressBars (self (ApplChunkToBar BarIndex w)))
  /\ (length (ProgressBars (self w)) = 4%nat ->
      length (ProgressBars (self (ApplChunkToBar BarIndex w))) = 4%nat).
Proof.
  intros Hbars _.
  assert (Forall (fun Bar => in_unit Bar = true)
                 [F32.zero; F32.zero; F32.zero; F32.zero]) as Hzeros
      by (repeat constructor).
  unfold ApplChunkToBar.
  destruct (_ || _); [split; [exact Hbars | tauto]|].
  destruct (_ || _); [split; [exact Hbars | tauto]|].
  cbv zeta.
  match goal with
  | |- context [if F32.ge (GetMasterProgress (self ?u)) F32.one then _ else _] =>
      set (w1 := u)
  end.
  assert (Forall (fun Bar => in_unit Bar = true) (ProgressBars (self w1))
          /\ length (ProgressBars (self w1)) = length (ProgressBars (self w)))
    as [Hbars1 Hlen1].
  { subst w1. cbn. split; [|apply length_Put].
    apply Forall_Put; [exact Hbars | apply Clamp_in_unit]. }
  assert (forall u : World,
             Forall (fun Bar => in_unit Bar = true) (ProgressBars (self u)) ->
             Forall (fun Bar => in_unit Bar = true)
                    (ProgressBars (self (if AllBarsFull (self u) then OnAllBarsFull u else u))))
    as Hhook by (intros u Hu; destruct (AllBarsFull (self u)); exact Hu).
  assert (forall u : World,
             ProgressBars (self (if AllBarsFull (self u) then OnAllBarsFull u else u))
             = ProgressBars (self u))
    as Hhook_eq by (intros u; destruct (AllBarsFull (self u)); reflexivity).
  rewrite Hhook_eq.
  destruct (F32.ge (GetMasterProgress (self w1)) F32.one).
  - destruct (OnFileWorkComplete_bars w1) as [-> | ->].
    + split; [exact Hzeros | reflexivity].
    + split; [exact Hbars1 | rewrite Hlen1; tauto].
  - split; [exact Hbars1 | rewrite Hlen1; tauto].
Qed.

Lemma ApplChunkToBar_keeps_bars_in_unit_witness :
  Forall (fun Bar => in_unit Bar = true)
         (ProgressBars (self (ApplChunkToBar 3 (world_three_bars_full 0)))).
Proof.
  apply (ApplChunkToBar_keeps_bars_in_unit 3 (world_three_bars_full 0)).
  - repeat constructor.
  - vm_compute. reflexivity.
Defined.

(* ===================================================================== *)
(** * Further properties: starting a day *)
(* ===================================================================== *)





(* ===================================================================== *)
(** * Further properties: activating a listed tile *)
(* ===================================================================== *)

Lemma Get_In {A : Type} (d : A) (l : list A) (i : Z) :
  IsValidIndex l i = true -> In (Get d l i) l.
Proof.
  intros Hi. unfold Get. rewrite Hi. apply IsValidIndex_true in Hi.
  destruct (l !! Z.to_nat i) as [x|] eqn:Hlook.
  - cbn. apply list_elem_of_In. apply (list_elem_of_lookup_2 _ _ _ Hlook).
  - apply lookup_ge_None in Hlook. lia.
Qed.

(** X6.  When [PrimeIndices] lists at least one valid index whose tile is
    not scary, [HighlightRandomPrime] sets the flag of exactly one such
    listed index -- the entry of the candidate list that the draw selects;
    the number of scary tiles grows by one -- and changes nothing else of
    the actor.  (Nothing in the source fills [PrimeIndices]; the statement
    is about the function as written.) *)
Theorem HighlightRandomPrime_activates_one (w : World) :
  let candidates :=
    List.filter (fun Idx => IsValidIndex (ScaryActive (self w)) Idx
                            && negb (Get false (ScaryActive (self w)) Idx))
                (PrimeIndices (self w)) in
  candidates <> [] ->
  Num candidates <= 2147483647 ->
  let Chosen := Get 0 candidates (RandDraws w (RandCursor w) mod Num candidates) in
  In Chosen (PrimeIndices (self w))
  /\ IsValidIndex (ScaryActive (self w)) Chosen = true
  /\ Get false (ScaryActive (self w)) Chosen = false
  /\ self (HighlightRandomPrime w)
     = set_ScaryActive (Put (ScaryActive (self w)) Chosen true) (self w)
  /\ count_true (ScaryActive (self (HighlightRandomPrime w)))
     = S (count_true (ScaryActive (self w)))
  /\ Log (HighlightRandomPrime w) = Log w.
Proof.
  intros candidates Hsome _ Chosen.
  assert (0 < Num candidates) as Hnum.
  { unfold Num. destruct candidates; [contradiction | cbn; lia]. }
  assert (In Chosen candidates) as Hin.
  { apply Get_In, IsValidIndex_true. fold (Num candidates).
    apply Z.mod_pos_bound, Hnum. }
  apply filter_In in Hin as [Hlisted Hok].
  apply andb_prop in Hok as [Hvalid Hclear].
  apply negb_true_iff in Hclear.
  assert ((Num (PrimeIndices (self w)) =? 0) = false) as Hlist.
  { apply Z.eqb_neq. unfold Num. destruct (PrimeIndices (self w)); [contradiction | cbn; lia]. }
  assert (HighlightRandomPrime w
          = mkWorld (set_ScaryActive (Put (ScaryActive (self w)) Chosen true) (self w))
                    (TimeSeconds w) (RandDraws w) (S (RandCursor w)) (Log w)) as Heq.
  { unfold HighlightRandomPrime. rewrite Hlist. cbv zeta. fold candidates.
    replace (Num candidates =? 0) with false by (symmetry; apply Z.eqb_neq; lia).
    unfold RandRange, RandHelper.
    replace (Num candidates - 1 - 0 + 1) with (Num candidates) by ring.
    replace (0 <? Num candidates) with true by (symmetry; apply Z.ltb_lt; exact Hnum).
    cbn [with_self self TimeSeconds RandDraws RandCursor Log]. reflexivity. }
  rewrite Heq. cbn [self Log set_ScaryActive ScaryActive].
  repeat apply conj; try assumption; try reflexivity.
  apply count_true_Put; assumption.
Qed.

Lemma HighlightRandomPrime_activates_one_witness :
  count_true (ScaryActive (self (HighlightRandomPrime world_with_primes)))
  = S (count_true (ScaryActive (self world_with_primes)))
  /\ IsIndexScary (self (HighlightRandomPrime world_with_primes)) 1 = true.
Proof.
  pose proof (HighlightRandomPrime_activates_one world_with_primes) as H.
  cbv zeta in H.
  specialize (H ltac:(vm_compute; discriminate) ltac:(vm_compute; discriminate)).
  destruct H as (_ & _ & _ & _ & Hcount & _).
  split; [exact Hcount | vm_compute; reflexivity].
Defined.

(* ===================================================================== *)
(** * Further properties: what a drop does to the grid *)
(* ===================================================================== *)

(** The loop body of [HandleScaryDrop] on a tile of the grid. *)
Lemma HandleScaryDrop_tile_valid (t : float) (w : World) (s : Z) :
  let g := GetGlobalIndexFromScreenIndex (self w) s in
  let scary := IsValidIndex (ScaryActive (self w)) g
               && Get false (ScaryActive (self w)) g in
  let base := F32.mul (F32.of_int (Get 0 (GlobalGridNumbers (self w)) g)) F32.c0_005 in
  let w' := snd (HandleScaryDrop_tile (t, w) s) in
  IsValidIndex (GlobalGridNumbers (self w)) g = true ->
  fst (HandleScaryDrop_tile (t, w) s)
  = F32.add t (if scary then F32.mul base F32.c4 else base)
  /\ GlobalGridNumbers (self w')
     = Put (GlobalGridNumbers (self w)) g (1 + RandDraws w (RandCursor w) mod 9)
  /\ ScaryActive (self w')
     = (if scary then Put (ScaryActive (self w)) g false else ScaryActive (self w))
  /\ (ScrollX (self w'), ScrollY (self w'), GridWidth (self w'))
     = (ScrollX (self w), ScrollY (self w), GridWidth (self w))
  /\ (GlobalMapWidth (self w'), GlobalMapHeight (self w'))
     = (GlobalMapWidth (self w), GlobalMapHeight (self w)).
Proof.
  cbv zeta. intros Hgrid. unfold HandleScaryDrop_tile. rewrite Hgrid.
  destruct (_ && _); cbn; repeat apply conj; reflexivity.
Qed.

Lemma HandleScaryDrop_tile_invalid (t : float) (w : World) (s : Z) :
  IsValidIndex (GlobalGridNumbers (self w))
               (GetGlobalIndexFromScreenIndex (self w) s) = false ->
  HandleScaryDrop_tile (t, w) s = (t, w).
Proof. intros Hgrid. unfold HandleScaryDrop_tile. rewrite Hgrid. reflexivity. Qed.

Lemma HandleScaryDrop_cells (TileIndices : list Z) (BarIndex : Z) (w : World) :
  let a' := self (HandleScaryDrop TileIndices BarIndex w) in
  let a1 := self (snd (HandleScaryDrop_loop TileIndices w)) in
  GlobalGridNumbers a' = GlobalGridNumbers a1
  /\ ScaryActive a' = ScaryActive a1
  /\ ScrollX a' = ScrollX a1 /\ ScrollY a' = ScrollY a1.
Proof.
  cbv zeta.
  pose proof (HandleScaryDrop_grid_view TileIndices BarIndex w) as Hview.
  unfold grid_view in Hview. injection Hview as Hg Hs Hsx Hsy _ _ _ _.
  repeat apply conj; assumption.
Qed.

(** X7.  A drop of the single tile [s] whose cell lies in the grid: the
    sum is [0 + value * 0.005f], times [4.0f] when the tile is scary;
    afterwards the cell is not scary, its value is the next
    [RandRange(1, 9)] draw, and every other cell of the grid and of the
    flags is as before. *)
Theorem HandleScaryDrop_single_tile (w : World) (s BarIndex : Z) :
  let g := GetGlobalIndexFromScreenIndex (self w) s in
  let scary := IsValidIndex (ScaryActive (self w)) g
               && Get false (ScaryActive (self w)) g in
  let base := F32.mul (F32.of_int (Get 0 (GlobalGridNumbers (self w)) g)) F32.c0_005 in
  let a' := self (HandleScaryDrop [s] BarIndex w) in
  map_ok (self w) ->
  screen_index_ok (self w) s ->
  IsValidIndex (GlobalGridNumbers (self w)) g = true ->
  fst (HandleScaryDrop_loop [s] w)
  = F32.add F32.zero (if scary then F32.mul base F32.c4 else base)
  /\ Get false (ScaryActive a') g = false
  /\ Get 0 (GlobalGridNumbers a') g = 1 + RandDraws w (RandCursor w) mod 9
  /\ tile_value (Get 0 (GlobalGridNumbers a') g)
  /\ forall j, j <> g ->
       Get 0 (GlobalGridNumbers a') j = Get 0 (GlobalGridNumbers (self w)) j
       /\ Get false (ScaryActive a') j = Get false (ScaryActive (self w)) j.
Proof.
  cbv zeta. intros _ _ Hgrid.
  destruct (HandleScaryDrop_tile_valid F32.zero w s Hgrid)
    as (Hsum & Hcells & Hflags & _ & _).
  destruct (HandleScaryDrop_cells [s] BarIndex w) as (Hg & Hs & _ & _).
  change (HandleScaryDrop_loop [s] w) with (HandleScaryDrop_tile (F32.zero, w) s)
    in Hg, Hs |- *.
  rewrite Hg, Hs, Hcells, Hflags.
  set (g := GetGlobalIndexFromScreenIndex (self w) s) in *.
  assert (Get 0 (Put (GlobalGridNumbers (self w)) g (1 + RandDraws w (RandCursor w) mod 9)) g
          = 1 + RandDraws w (RandCursor w) mod 9) as Hvalue
      by (apply Get_Put_same, Hgrid).
  split; [exact Hsum|]. split.
  { destruct (IsValidIndex (ScaryActive (self w)) g) eqn:Hvalid.
    - destruct (Get false (ScaryActive (self w)) g) eqn:Hbit; cbn [andb].
      + apply Get_Put_same, Hvalid.
      + exact Hbit.
    - cbn [andb]. apply Get_invalid, Hvalid. }
  split; [exact Hvalue|].
  split; [rewrite Hvalue; apply RandRange_1_9|].
  intros j Hj. split.
  - rewrite Get_Put_other by (intros Heq; apply Hj; symmetry; exact Heq). reflexivity.
  - destruct (_ && _); [|reflexivity].
    rewrite Get_Put_other by (intros Heq; apply Hj; symmetry; exact Heq). reflexivity.
Qed.

Lemma HandleScaryDrop_single_tile_witness :
  fst (HandleScaryDrop_loop [0] world_all_nines)
  = F32.add F32.zero (F32.mul (F32.of_int 9) F32.c0_005)
  /\ tile_value (Get 0 (GlobalGridNumbers (self (HandleScaryDrop [0] 0 world_all_nines))) 0).
Proof.
  pose proof (HandleScaryDrop_single_tile world_all_nines 0 0) as H.
  cbv zeta in H.
  specialize (H ltac:(vm_compute; intuition discriminate)
                ltac:(vm_compute; intuition discriminate)
                ltac:(vm_compute; reflexivity)).
  destruct H as (Hsum & _ & _ & Hvalue & _).
  split; [|exact Hvalue].
  rewrite Hsum. vm_compute. reflexivity.
Defined.

Lemma count_true_clear (flags : list bool) (i : Z) :
  (count_true (Put flags i false) <= count_true flags)%nat.
Proof.
  unfold Put. destruct (IsValidIndex flags i); [|lia].
  unfold count_true. generalize (Z.to_nat i) as n.
  induction flags as [|b flags IH]; intros n; [destruct n; cbn; lia|].
  destruct n as [|n].
  - cbn. destruct b; cbn; lia.
  - change (<[S n := false]> (b :: flags)) with (b :: <[n := false]> flags).
    cbn [List.filter]. specialize (IH n). destruct b; cbn [length]; lia.
Qed.

(** X8.  A drop keeps the grid well formed: if every cell holds a value of
    [1..9] before [HandleScaryDrop], every cell does after it, for every
    selection, duplicates and off-screen indices included; the grid and
    the flag array keep their sizes, no scary flag is set (their number
    does not grow), and the viewport does not move. *)
Theorem HandleScaryDrop_keeps_the_grid_well_formed
    (TileIndices : list Z) (BarIndex : Z) (w : World) :
  map_ok (self w) ->
  Forall (screen_index_ok (self w)) TileIndices ->
  Forall tile_value (GlobalGridNumbers (self w)) ->
  let a' := self (HandleScaryDrop TileIndices BarIndex w) in
  Forall tile_value (GlobalGridNumbers a')
  /\ length (GlobalGridNumbers a') = length (GlobalGridNumbers (self w))
  /\ length (ScaryActive a') = length (ScaryActive (self w))
  /\ (count_true (ScaryActive a') <= count_true (ScaryActive (self w)))%nat
  /\ (ScrollX a', ScrollY a') = (ScrollX (self w), ScrollY (self w)).
Proof.
  intros _ _ Hgood. cbv zeta.
  destruct (HandleScaryDrop_cells TileIndices BarIndex w) as (Hg & Hs & Hsx & Hsy).
  rewrite Hg, Hs, Hsx, Hsy. clear Hg Hs Hsx Hsy.
  unfold HandleScaryDrop_loop. generalize F32.zero as t. revert w Hgood.
  induction TileIndices as [|s l IH]; intros w Hgood t.
  - cbn [fold_left snd]. repeat apply conj; try reflexivity; try exact Hgood; lia.
  - cbn [fold_left].
    destruct (IsValidIndex (GlobalGridNumbers (self w))
                           (GetGlobalIndexFromScreenIndex (self w) s)) eqn:Hvalid.
    + destruct (HandleScaryDrop_tile_valid t w s Hvalid)
        as (_ & Hcells & Hflags & Hscroll & _).
      destruct (HandleScaryDrop_tile (t, w) s) as [t1 w1]. cbn [snd] in *.
      injection Hscroll as Hsx Hsy _.
      destruct (IH w1) with (t := t1) as (Hgood' & Hlen & Hlen' & Hcount & Hpos).
      { rewrite Hcells. apply Forall_Put; [exact Hgood | apply RandRange_1_9]. }
      rewrite Hcells, length_Put in Hlen. rewrite Hsx, Hsy in Hpos.
      repeat apply conj; try assumption.
      * rewrite Hlen', Hflags. destruct (_ && _); [apply length_Put | reflexivity].
      * etransitivity; [exact Hcount|]. rewrite Hflags.
        destruct (_ && _); [apply count_true_clear | lia].
    + rewrite (HandleScaryDrop_tile_invalid t w s Hvalid). apply IH, Hgood.
Qed.

Lemma HandleScaryDrop_keeps_the_grid_well_formed_witness :
  Forall tile_value
         (GlobalGridNumbers (self (HandleScaryDrop [0; 0; 100; -7] 0 world_all_nines))).
Proof.
  apply (HandleScaryDrop_keeps_the_grid_well_formed [0; 0; 100; -7] 0 world_all_nines).
  - vm_compute. intuition discriminate.
  - repeat constructor; vm_compute; intuition discriminate.
  - apply List.Forall_forall. intros v Hv.
    assert (v = 9) as ->; [|unfold tile_value; lia].
    revert v Hv. apply List.Forall_forall. vm_compute.
    repeat constructor.
Defined.

(* ===================================================================== *)
(** * Further properties: the viewport stays on the map *)
(* ===================================================================== *)



(* ===================================================================== *)
(** * Further properties: the 3 x 3 group *)
(* ===================================================================== *)

Lemma for_range_3 (c : Z) : for_range (c - 1) (c + 1 + 1) 1 = [c - 1; c; c + 1].
Proof.
  unfold for_range.
  replace ((c + 1 + 1 - (c - 1) + 1 - 1) / 1) with 3 by (rewrite Z.div_1_r; ring).
  change (Z.to_nat 3) with 3%nat. cbn [seq map].
  repeat (f_equal; try lia).
Qed.

Lemma fold_left_collect {A B : Type} (p : A -> bool) (h : A -> B) (l : list A)
    (acc : list B) :
  fold_left (fun G x => if p x then G ++ [h x] else G) l acc
  = acc ++ map h (List.filter p l).
Proof.
  revert acc. induction l as [|x l IH]; intros acc; cbn [fold_left List.filter map].
  - symmetry. apply app_nil_r.
  - rewrite IH. destruct (p x); [|reflexivity].
    cbn [map]. rewrite <- app_assoc. reflexivity.
Qed.

Lemma fold_left_append {A B : Type} (F : A -> list B) (l : list A) (acc : list B) :
  fold_left (fun G y => G ++ F y) l acc = acc ++ flat_map F l.
Proof.
  revert acc. induction l as [|y l IH]; intros acc; cbn [fold_left flat_map].
  - symmetry. apply app_nil_r.
  - rewrite IH, app_assoc. reflexivity.
Qed.

Lemma fold_left_pointwise {A B : Type} (f g : B -> A -> B) (l : list A) (acc : B) :
  (forall b x, f b x = g b x) -> fold_left f l acc = fold_left g l acc.
Proof.
  intros Hfg. revert acc. induction l as [|x l IH]; intros acc; cbn [fold_left].
  - reflexivity.
  - rewrite Hfg. apply IH.
Qed.

(** [Get3x3Group] as the list of the in-bounds cells of the block, row by
    row. *)
Lemma Get3x3Group_eq (a : ATerminalActor) (c : Z) :
  Get3x3Group a c
  = flat_map
      (fun y =>
         map (fun x => y * GlobalMapWidth a + x)
             (List.filter
                (fun x => (0 <=? x) && (x <? GlobalMapWidth a)
                          && (0 <=? y) && (y <? GlobalMapHeight a))
                [Z.rem c (GlobalMapWidth a) - 1; Z.rem c (GlobalMapWidth a);
                 Z.rem c (GlobalMapWidth a) + 1]))
      [Z.quot c (GlobalMapWidth a) - 1; Z.quot c (GlobalMapWidth a);
       Z.quot c (GlobalMapWidth a) + 1].
Proof.
  unfold Get3x3Group. cbv zeta. rewrite !for_range_3.
  rewrite <- (app_nil_l (flat_map _ _)), <- fold_left_append.
  apply fold_left_pointwise. intros G y.
  apply (fold_left_collect
           (fun x => (0 <=? x) && (x <? GlobalMapWidth a)
                     && (0 <=? y) && (y <? GlobalMapHeight a))
           (fun x => y * GlobalMapWidth a + x)).
Qed.

(** X10.  [Get3x3Group] of a cell of the map returns exactly the cells of
    the map whose column and row are within one of the centre's, without
    wrapping around the edges: at most nine indices, all inside the grid,
    the centre among them; for a centre that touches no edge they are the
    nine indices of the block, row by row. *)
Theorem Get3x3Group_is_clipped (a : ATerminalActor) (c : Z) :
  let W := GlobalMapWidth a in
  let H := GlobalMapHeight a in
  map_ok a ->
  0 <= c < W * H ->
  (forall i, In i (Get3x3Group a c)
             <-> exists x y, i = y * W + x /\ 0 <= x < W /\ 0 <= y < H
                             /\ c mod W - 1 <= x <= c mod W + 1
                             /\ c / W - 1 <= y <= c / W + 1)
  /\ In c (Get3x3Group a c)
  /\ (forall i, In i (Get3x3Group a c) -> 0 <= i < W * H)
  /\ (length (Get3x3Group a c) <= 9)%nat
  /\ (1 <= c mod W <= W - 2 -> 1 <= c / W <= H - 2 ->
      Get3x3Group a c = [c - W - 1; c - W; c - W + 1;
                         c - 1; c; c + 1;
                         c + W - 1; c + W; c + W + 1]).
Proof.
  cbv zeta. intros (HW & HH & _) Hc.
  set (W := GlobalMapWidth a) in *. set (H := GlobalMapHeight a) in *.
  assert (Z.rem c W = c mod W) as Hrem by (apply Z.rem_mod_nonneg; lia).
  assert (Z.quot c W = c / W) as Hquot by (apply Z.quot_div_nonneg; lia).
  pose proof (Z.mod_pos_bound c W HW) as Hcx.
  pose proof (Z.div_mod c W ltac:(lia)) as Hdm.
  assert (0 <= c / W < H) as Hcy.
  { split; [apply Z.div_pos; lia | apply Z.div_lt_upper_bound; lia]. }
  rewrite Get3x3Group_eq. fold W H. rewrite Hrem, Hquot.
  set (cx := c mod W) in *. set (cy := c / W) in *.
  assert (forall i,
             In i (flat_map
                     (fun y => map (fun x => y * W + x)
                                   (List.filter
                                      (fun x => (0 <=? x) && (x <? W) && (0 <=? y) && (y <? H))
                                      [cx - 1; cx; cx + 1]))
                     [cy - 1; cy; cy + 1])
             <-> exists x y, i = y * W + x /\ 0 <= x < W /\ 0 <= y < H
                             /\ cx - 1 <= x <= cx + 1 /\ cy - 1 <= y <= cy + 1) as Hmem.
  { intros i. rewrite in_flat_map. split.
    - intros (y & Hy & Hi). apply in_map_iff in Hi as (x & <- & Hx).
      apply filter_In in Hx as [Hx Hin].
      exists x, y. cbn [In] in Hx, Hy. repeat split; lia.
    - intros (x & y & -> & Hx & Hy & Hnx & Hny).
      exists y. split; [cbn [In]; lia|].
      apply in_map_iff. exists x. split; [reflexivity|].
      apply filter_In. split; [cbn [In]; lia | lia]. }
  split; [exact Hmem|]. split.
  { apply Hmem. exists cx, cy. repeat split; lia. }
  split.
  { intros i Hi. apply Hmem in Hi as (x & y & -> & Hx & Hy & _). nia. }
  split.
  { cbn [flat_map]. rewrite !length_app, !length_map. cbn [length].
    pose proof (List.filter_length_le
                  (fun x => (0 <=? x) && (x <? W) && (0 <=? cy - 1) && (cy - 1 <? H))
                  [cx - 1; cx; cx + 1]).
    pose proof (List.filter_length_le
                  (fun x => (0 <=? x) && (x <? W) && (0 <=? cy) && (cy <? H))
                  [cx - 1; cx; cx + 1]).
    pose proof (List.filter_length_le
                  (fun x => (0 <=? x) && (x <? W) && (0 <=? cy + 1) && (cy + 1 <? H))
                  [cx - 1; cx; cx + 1]).
    cbn [length] in *.
    lia. }
  intros Hix Hiy. cbn [flat_map List.filter].
  repeat match goal with
         | |- context [if ?b then _ else _] =>
             replace b with true by (symmetry; lia)
         end.
  cbn [map app]. repeat (f_equal; try lia).
Qed.

Lemma Get3x3Group_is_clipped_witness :
  In 0 (Get3x3Group ATerminalActor_new 0)
  /\ (length (Get3x3Group ATerminalActor_new 0) <= 9)%nat.
Proof.
  destruct (Get3x3Group_is_clipped ATerminalActor_new 0) as (_ & Hin & _ & Hlen & _).
  - vm_compute. intuition discriminate.
  - vm_compute. intuition discriminate.
  - split; [exact Hin | exact Hlen].
Defined.

(* ===================================================================== *)
(** * Further properties: a chunk is spent once *)
(* ===================================================================== *)

Lemma OnFileWorkComplete_pending (w : World) :
  PendingChunkValue (self (OnFileWorkComplete w)) = PendingChunkValue (self w).
Proof.
  unfold OnFileWorkComplete. cbv zeta.
  destruct (_ <=? _); reflexivity.
Qed.

Lemma ApplChunkToBar_unchanged_or_spent (BarIndex : Z) (w : World) :
  ApplChunkToBar BarIndex w = w
  \/ PendingChunkValue (self (ApplChunkToBar BarIndex w)) = F32.zero.
Proof.
  destruct (bDayActive (self w)) eqn:Hday;
    [|left; unfold ApplChunkToBar; rewrite Hday; reflexivity].
  destruct (F32.le (PendingChunkValue (self w)) F32.zero) eqn:Hchunk;
    [left; apply ApplChunkToBar_no_chunk; exact Hchunk|].
  destruct (IsValidIndex (ProgressBars (self w)) BarIndex) eqn:Hvalid;
    [|left; apply ApplChunkToBar_invalid_bar; exact Hvalid].
  destruct (F32.ge (Get F32.zero (ProgressBars (self w)) BarIndex) F32.one) eqn:Hroom;
    [left; unfold ApplChunkToBar; rewrite Hday, Hchunk, Hvalid, Hroom; reflexivity|].
  right. rewrite (ApplChunkToBar_applies BarIndex w Hday Hchunk Hvalid Hroom).
  cbv zeta.
  assert (PendingChunkValue (self (chunk_applied BarIndex w)) = F32.zero) as Hzero
      by reflexivity.
  set (w1 := chunk_applied BarIndex w) in *. clearbody w1.
  destruct (F32.ge (GetMasterProgress (self w1)) F32.one).
  - destruct (AllBarsFull (self (OnFileWorkComplete w1)));
      cbn [OnAllBarsFull emit self]; rewrite OnFileWorkComplete_pending; exact Hzero.
  - destruct (AllBarsFull (self w1)); exact Hzero.
Qed.

(** X11.  [ApplChunkToBar] spends the pending chunk at most once: a call
    either leaves the world as it was, or leaves no pending chunk
    ([PendingChunkValue] is [0], [HasPendingChunk] is false) and then no
    further call, on any bar, does anything.  In both cases repeating the
    call on the same bar changes nothing. *)
Theorem ApplChunkToBar_spends_the_chunk_once (BarIndex : Z) (w : World) :
  (ApplChunkToBar BarIndex w = w
   \/ (PendingChunkValue (self (ApplChunkToBar BarIndex w)) = F32.zero
       /\ HasPendingChunk (self (ApplChunkToBar BarIndex w)) = false
       /\ forall Other : Z,
            ApplChunkToBar Other (ApplChunkToBar BarIndex w)
            = ApplChunkToBar BarIndex w))
  /\ ApplChunkToBar BarIndex (ApplChunkToBar BarIndex w) = ApplChunkToBar BarIndex w.
Proof.
  destruct (ApplChunkToBar_unchanged_or_spent BarIndex w) as [Hsame | Hspent].
  - split; [left; exact Hsame|]. rewrite !Hsame. reflexivity.
  - assert (forall Other : Z,
               ApplChunkToBar Other (ApplChunkToBar BarIndex w)
               = ApplChunkToBar BarIndex w) as Hnext.
    { intros Other. apply ApplChunkToBar_no_chunk. rewrite Hspent. reflexivity. }
    split; [right|apply Hnext].
    split; [exact Hspent|]. split; [|exact Hnext].
    unfold HasPendingChunk. rewrite Hspent. reflexivity.
Qed.

(* ===================================================================== *)
(** * Further properties: the cooldown of a bar *)
(* ===================================================================== *)

Lemma OnFileWorkComplete_cooldown (cooling : list bool) (remaining : list float)
    (w : World) :
  OnFileWorkComplete (with_self (set_cooldown cooling remaining) w)
  = with_self (set_cooldown cooling remaining) (OnFileWorkComplete w).
Proof.
  unfold OnFileWorkComplete. cbv zeta.
  cbn [with_self self set_cooldown set_FilesRefinedCount FilesRefinedCount FilesPerDay
       OnFileCompleted emit].
  destruct (_ <=? _); reflexivity.
Qed.

Lemma ApplChunkToBar_day_over (BarIndex : Z) (w : World) :
  bDayActive (self w) = false ->
  ApplChunkToBar BarIndex w = w.
Proof.
  intros Hday. unfold ApplChunkToBar. rewrite Hday. reflexivity.
Qed.

Lemma ApplChunkToBar_full_bar (BarIndex : Z) (w : World) :
  F32.ge (Get F32.zero (ProgressBars (self w)) BarIndex) F32.one = true ->
  ApplChunkToBar BarIndex w = w.
Proof.
  intros Hfull. unfold ApplChunkToBar. rewrite Hfull, orb_true_r.
  destruct (_ || _); reflexivity.
Qed.

(** What [ApplChunkToBar] does once the chunk is on the bar commutes with
    a change of the cooldown state. *)
Lemma ApplChunkToBar_completion_cooldown (cooling : list bool)
    (remaining : list float) (w1 : World) :
  (let w2 := if F32.ge (GetMasterProgress
                          (self (with_self (set_cooldown cooling remaining) w1)))
                       F32.one
             then OnFileWorkComplete (with_self (set_cooldown cooling remaining) w1)
             else with_self (set_cooldown cooling remaining) w1 in
   if AllBarsFull (self w2) then OnAllBarsFull w2 else w2)
  = with_self (set_cooldown cooling remaining)
      (let w2 := if F32.ge (GetMasterProgress (self w1)) F32.one
                 then OnFileWorkComplete w1 else w1 in
       if AllBarsFull (self w2) then OnAllBarsFull w2 else w2).
Proof.
  cbv zeta.
  change (GetMasterProgress (self (with_self (set_cooldown cooling remaining) w1)))
    with (GetMasterProgress (self w1)).
  destruct (F32.ge (GetMasterProgress (self w1)) F32.one).
  - rewrite OnFileWorkComplete_cooldown.
    change (AllBarsFull (self (with_self (set_cooldown cooling remaining)
                                 (OnFileWorkComplete w1))))
      with (AllBarsFull (self (OnFileWorkComplete w1))).
    destruct (AllBarsFull (self (OnFileWorkComplete w1))); reflexivity.
  - change (AllBarsFull (self (with_self (set_cooldown cooling remaining) w1)))
      with (AllBarsFull (self w1)).
    destruct (AllBarsFull (self w1)); reflexivity.
Qed.

(** X12.  [IsBarAvailable] is true exactly for a valid bar that is neither
    cooling down nor full, and [ApplChunkToBar] does not consult it: the
    cooldown state of the bars has no effect on what a call does, so a
    bar that is reported unavailable because it is cooling down takes the
    chunk all the same. *)
Theorem ApplChunkToBar_ignores_the_cooldown (BarIndex : Z) (cooling : list bool)
    (remaining : list float) (w : World) :
  IsBarAvailable (self w) BarIndex
  = IsValidIndex (bBarCoolingDown (self w)) BarIndex
    && negb (Get false (bBarCoolingDown (self w)) BarIndex)
    && negb (IsBarFull (self w) BarIndex)
    && IsValidIndex (ProgressBars (self w)) BarIndex
  /\ ApplChunkToBar BarIndex (with_self (set_cooldown cooling remaining) w)
     = with_self (set_cooldown cooling remaining) (ApplChunkToBar BarIndex w).
Proof.
  split.
  - unfold IsBarAvailable, IsBarFull.
    destruct (IsValidIndex (bBarCoolingDown (self w)) BarIndex);
      destruct (IsValidIndex (ProgressBars (self w)) BarIndex);
      cbn [negb orb andb]; try reflexivity.
    + rewrite andb_true_r. reflexivity.
    + rewrite andb_false_r. reflexivity.
  - set (sc := set_cooldown cooling remaining).
    destruct (bDayActive (self w)) eqn:Hday;
      [|rewrite (ApplChunkToBar_day_over BarIndex w Hday),
          (ApplChunkToBar_day_over BarIndex (with_self sc w) Hday); reflexivity].
    destruct (F32.le (PendingChunkValue (self w)) F32.zero) eqn:Hchunk;
      [rewrite (ApplChunkToBar_no_chunk BarIndex w Hchunk),
         (ApplChunkToBar_no_chunk BarIndex (with_self sc w) Hchunk); reflexivity|].
    destruct (IsValidIndex (ProgressBars (self w)) BarIndex) eqn:Hvalid;
      [|rewrite (ApplChunkToBar_invalid_bar BarIndex w Hvalid),
          (ApplChunkToBar_invalid_bar BarIndex (with_self sc w) Hvalid); reflexivity].
    destruct (F32.ge (Get F32.zero (ProgressBars (self w)) BarIndex) F32.one) eqn:Hroom;
      [rewrite (ApplChunkToBar_full_bar BarIndex w Hroom),
         (ApplChunkToBar_full_bar BarIndex (with_self sc w) Hroom); reflexivity|].
    rewrite (ApplChunkToBar_applies BarIndex w Hday Hchunk Hvalid Hroom).
    rewrite (ApplChunkToBar_applies BarIndex (with_self sc w) Hday Hchunk Hvalid Hroom).
    subst sc. rewrite <- ApplChunkToBar_completion_cooldown. reflexivity.
Qed.

(* ===================================================================== *)
(** * Further properties: outside a day *)
(* ===================================================================== *)






(* ===================================================================== *)
(** * Further properties: the primes of the game *)
(* ===================================================================== *)

Lemma small_prime (p : Z) :
  p = 2 \/ p = 3 \/ p = 5 \/ p = 7 \/ p = 11 -> prime_number p.
Proof.
  intros Hp. split; [lia|].
  intros d Hd [q Hq].
  assert (0 < q < p) as Hqrange by nia.
  assert (d = 2 \/ d = 3 \/ d = 4 \/ d = 5 \/ d = 6 \/ d = 7 \/ d = 8 \/ d = 9
          \/ d = 10) as Hcases by lia.
  lia.
Qed.

Lemma composite_not_prime (d q : Z) :
  1 < d -> 1 < q -> ~ prime_number (d * q).
Proof.
  intros Hd Hq [_ Hprime].
  apply (Hprime d); [nia|].
  exists q. ring.
Qed.

(** X15.  [IsPrime] answers true for 2, 3, 5 and 7 and for nothing else.
    That is primality for every number up to 10, so for every value a
    tile can hold; 11 is a prime for which it answers false. *)
Theorem IsPrime_is_primality_up_to_10 (Number : Z) :
  Number <= 10 ->
  (IsPrime Number = true <-> Number = 2 \/ Number = 3 \/ Number = 5 \/ Number = 7)
  /\ (IsPrime Number = true <-> prime_number Number)
  /\ (prime_number 11 /\ IsPrime 11 = false).
Proof.
  intros Hsmall.
  assert (IsPrime Number = true
          <-> Number = 2 \/ Number = 3 \/ Number = 5 \/ Number = 7) as Hlist.
  { unfold IsPrime. rewrite !orb_true_iff, !Z.eqb_eq. tauto. }
  split; [exact Hlist|]. split.
  - rewrite Hlist. split; [intros Hp; apply small_prime; tauto|].
    intros Hprime. pose proof (proj1 Hprime) as Hge.
    assert (Number = 2 \/ Number = 3 \/ Number = 2 * 2 \/ Number = 5 \/ Number = 2 * 3
            \/ Number = 7 \/ Number = 2 * 4 \/ Number = 3 * 3 \/ Number = 2 * 5)
      as Hcases by lia.
    destruct Hcases as [H | [H | [H | [H | [H | [H | [H | [H | H]]]]]]]];
      try (rewrite H in Hprime; apply composite_not_prime in Hprime;
           [contradiction | lia | lia]);
      lia.
  - split; [apply small_prime; tauto | reflexivity].
Qed.

Lemma IsPrime_is_primality_up_to_10_witness :
  IsPrime 7 = true <-> prime_number 7.
Proof.
  destruct (IsPrime_is_primality_up_to_10 7) as (_ & Hprime & _).
  - lia.
  - exact Hprime.
Defined.
